(** * patchbay: metadata ledger, action dispatch and crawl orchestration

    A shallow embedding of the three Go sources of the service:

    - [metadata.go]: the hash-chained metadata record ([CalcHash],
      [NextMetadata], [LatestMetadata], [HashableBytes], [calcHash],
      [Write], [UnmarshalSQL]);
    - the websocket client ([readPump], [HandleAction], [SendResponse],
      [HandleRequestAction]);
    - the archiving code ([ValidArchivingUrl], [Client.ArchiveUrl] and the
      callback flavoured [ArchiveUrl]).

    Everything the package reaches through an interface or another package
    (the SQL database, the datastore, [encoding/json], [crypto/sha256],
    [go-multihash], the registry of request actions) is a field of a type
    class, so every statement below holds for every behaviour of those
    collaborators.  Calls that leave the package are recorded as an ordered
    list of [event]s, which is what the statements about "exactly one
    response" or "nothing is persisted" are about. *)

From Stdlib Require Import ZArith Lia List Ascii String Bool.
From Stdlib.Strings Require Import Byte.
From stdpp Require Import base option list strings gmap pretty.

#[local] Set Warnings "-register-all".

Local Open Scope string_scope.
Local Open Scope list_scope.
Local Open Scope Z_scope.

(** ** Go values *)

Definition bytes := list byte.

(** [error] values.  The sentinels are compared by identity in the source
    ([err == ErrNotFound]); every other error is [errors_New]. *)
Inductive error : Type :=
| ErrNotFound
| sql_ErrNoRows
| core_ErrNotFound
| errors_New (msg : string).

#[global] Instance error_eq_dec : EqDecision error.
Proof. solve_decision. Defined.

Inductive result (A : Type) : Type :=
| Ok (a : A)
| Err (e : error).
Arguments Ok {A} a.
Arguments Err {A} e.

(** [time.Time]: an instant (nanoseconds since the Unix epoch) presented in
    a zone (seconds east of UTC). *)
Record Time : Type := mkTime { unixNano : Z; zoneOffset : Z }.

Definition Second : Z := 1000000000.

(** Seconds from the zero time (January 1, year 1, UTC) to the Unix epoch. *)
Definition unixToInternal : Z := 62135596800.

(** [t.Round(d)]: nearest multiple of [d] since the zero time, halfway
    values round up; [d <= 0] returns [t] unchanged. *)
Definition Time_Round (t : Time) (d : Z) : Time :=
  if d <=? 0 then t
  else
    let r := (unixNano t + unixToInternal * Second) mod d in
    if r + r <? d
    then mkTime (unixNano t - r) (zoneOffset t)
    else mkTime (unixNano t + (d - r)) (zoneOffset t).

(** [t.Truncate(d)]: rounds down to a multiple of [d] since the zero time. *)
Definition Time_Truncate (t : Time) (d : Z) : Time :=
  if d <=? 0 then t
  else mkTime (unixNano t - (unixNano t + unixToInternal * Second) mod d)
              (zoneOffset t).

(** [t.In(time.UTC)]: same instant, presented in UTC. *)
Definition Time_In_UTC (t : Time) : Time := mkTime (unixNano t) 0.

(** The zero [time.Time]. *)
Definition Time_zero : Time := mkTime (- unixToInternal * Second) 0.

(** A [float64]. *)
Inductive float64 : Type :=
| Finite (mantissa exponent : Z)
| NaN
| Inf (negative : bool).

(** A [Url] record, as far as the sources touch it ([Url], [Hash] and
    [Title]); it stands for both [Url] of package main and [core.Url]. *)
Record Url : Type := mkUrl { Url_Url : string; Url_Hash : string; Url_Title : string }.

Definition set_Title (u : Url) (t : string) : Url :=
  mkUrl (Url_Url u) (Url_Hash u) t.

(** A [core.Link]: only its destination is used. *)
Record Link : Type := mkLink { Dst : Url }.

(** What an [interface{}] can hold, as far as this package looks at it. *)
Inductive Value : Type :=
| VNil
| VBool (b : bool)
| VFloat (f : float64)
| VString (s : string)
| VTime (t : Time)
| VSlice (l : list Value)
| VMap (kv : list (string * Value))
| VStruct (fields : list (string * Value))
| VUrl (u : Url)
| VLinks (links : list Link)
| VChan.

(** [Time.MarshalJSON] refuses years outside [0,9999]. *)
Definition year_in_range (t : Time) : bool :=
  let wall := unixNano t / Second + zoneOffset t in
  (-62167219200 <=? wall) && (wall <? 253402300800).

(** Values [json.Marshal] accepts: no channel, no NaN or infinity, no time
    with an unprintable year, anywhere in the value. *)
Fixpoint marshalable (v : Value) : bool :=
  match v with
  | VNil | VBool _ | VString _ | VUrl _ | VLinks _ => true
  | VFloat (Finite _ _) => true
  | VFloat _ => false
  | VTime t => year_in_range t
  | VSlice l => forallb marshalable l
  | VMap kv => forallb (fun p => marshalable (snd p)) kv
  | VStruct fs => forallb (fun p => marshalable (snd p)) fs
  | VChan => false
  end.

(** [hex.EncodeToString] *)
Definition hextable : list ascii :=
  list_ascii_of_string "0123456789abcdef".

Definition hexdigit (n : N) : ascii := nth (N.to_nat n) hextable "0"%char.

Fixpoint hex_EncodeToString (src : bytes) : string :=
  match src with
  | [] => ""
  | b :: rest =>
      let n := Byte.to_N b in
      String (hexdigit (N.shiftr n 4))
        (String (hexdigit (N.land n 15)) (hex_EncodeToString rest))
  end.

(** [strings.HasSuffix] *)
Definition strings_HasSuffix (s suffix : string) : bool :=
  (String.length suffix <=? String.length s)%nat &&
  String.eqb
    (substring (String.length s - String.length suffix)
               (String.length suffix) s)
    suffix.

(** ** The metadata record ([metadata.go]) *)

Record Metadata : Type := mkMetadata {
  Hash : string;
  Timestamp : Time;
  KeyId : string;
  Subject : string;
  Prev : string;
  Meta : option (gmap string Value)   (* [None] is the nil map *)
}.

Definition set_Hash (m : Metadata) (h : string) : Metadata :=
  mkMetadata h (Timestamp m) (KeyId m) (Subject m) (Prev m) (Meta m).

Definition set_Timestamp (m : Metadata) (t : Time) : Metadata :=
  mkMetadata (Hash m) t (KeyId m) (Subject m) (Prev m) (Meta m).

(** The columns [metadataCols] names, in that order; [col_meta] is [None]
    for SQL NULL (a nil [[]byte]). *)
Record MetadataRow : Type := mkRow {
  col_hash : string;
  col_time_stamp : Time;
  col_key_id : string;
  col_subject : string;
  col_prev : string;
  col_meta : option bytes
}.

(** [m.Meta] as the value [json.Marshal] sees: a nil map or an object. *)
Definition Meta_value (meta : option (gmap string Value)) : Value :=
  match meta with
  | None => VNil
  | Some g => VMap (map_to_list g)
  end.

(** [m.Meta[k]]: indexing a nil map or a missing key yields nil. *)
Definition Meta_index (meta : option (gmap string Value)) (k : string) : Value :=
  match meta with
  | None => VNil
  | Some g => default VNil (g !! k)
  end.

(** [v.(string)] in its two-result form. *)
Definition assert_string (v : Value) : string * bool :=
  match v with
  | VString s => (s, true)
  | _ => ("", false)
  end.

(** Modelled from the spec: the [ClientResponse] struct, declared outside
    the three sources.  Its fields are those of the outbound envelope,
    [{Type, RequestId, Error, Schema, Data, SilentError}]; the sources set
    [Type], [RequestId], [Error], [Schema], [Data] and [SilentError]. *)
Record ClientResponse : Type := mkResponse {
  Type_ : string;
  RequestId : string;
  Error_ : string;
  Schema : string;
  Data : Value;
  SilentError : bool
}.

Definition set_SilentError (r : ClientResponse) (b : bool) : ClientResponse :=
  mkResponse (Type_ r) (RequestId r) (Error_ r) (Schema r) (Data r) b.

(** The inbound envelope [HandleAction] decodes into. *)
Record Action : Type := mkAction {
  act_Type : string;
  act_RequestId : string;
  act_SilentError : bool;
  act_Data : bytes   (* json.RawMessage *)
}.

(** ** Calls that leave the package *)

Inductive statement : Type :=
| InsertMetadata (row : MetadataRow)
| InsertArchiveRequest (created : Time) (url user_id : string).

Inductive url_op : Type := OpRead | OpSave | OpGet.

Inductive goroutine : Type :=
| GoTitleProjection (subject title : string)
| GoCrawlLinks (links : list Link).

Inductive event : Type :=
| EvQuerySubprimers (url : string)      (* the [select exists(...)] of the policy check *)
| EvExec (s : statement)                (* [db.Exec] *)
| EvUrl (op : url_op) (url : string)    (* [u.Read], [u.Save], [u.Get] on the store *)
| EvLog (line : string)                 (* a logger call *)
| EvSend (data : bytes)                 (* [c.send <- data] *)
| EvSleep (d : Z)                       (* [time.Sleep] *)
| EvGo (g : goroutine)                  (* a [go] statement *)
| EvCall (type reqId : string)          (* [t.Parse(reqId, data).Exec()] *)
| EvUnregister
| EvClose.

(** ** Collaborators *)

(** Other packages: hashing, multihash framing, JSON. *)
Class Externals : Type := {
  sha256_Sum : bytes -> bytes;
  multihash_EncodeName : bytes -> string -> result bytes;
  (* the bytes [json.Marshal] writes for a value it accepts *)
  json_encode : Value -> bytes;
  json_encode_response : ClientResponse -> bytes;
  (* [json.Unmarshal] into a [map[string]interface{}] and into the envelope *)
  json_Unmarshal_meta : bytes -> result (option (gmap string Value));
  json_Unmarshal_action : bytes -> result Action;
  (* texts of [err.Error()] for the sentinels declared elsewhere *)
  ErrNotFound_text : string;
  core_ErrNotFound_text : string
}.

(** The [sqlQueryable] / [sqlQueryExecable] interfaces, one method per
    statement the sources send through them. *)
Class Database (DB : Type) : Type := {
  (* Scan of the first row of
     [select ... from metadata where key_id = $1 and subject = $2
      order by time_stamp desc] *)
  QueryRow_latest_metadata : DB -> string -> string -> result MetadataRow;
  (* [insert into metadata values ($1, ..., $6, false)] *)
  Exec_insert_metadata : DB -> MetadataRow -> DB * option error;
  (* [select exists(select 1 from subprimers where $1 ilike concat('%', url ,'%'))] *)
  QueryRow_subprimer_exists : DB -> string -> result bool;
  (* [insert into archive_requests (created,url,user_id) values ($1, $2, $3)] *)
  Exec_insert_archive_request : DB -> Time -> string -> string -> DB * option error;
  (* [Url.Read] and [Url.Update] of package main *)
  Url_Read : DB -> Url -> Url * option error;
  Url_Update : DB -> Url -> DB * option error
}.

Definition Error `{Externals} (e : error) : string :=
  match e with
  | ErrNotFound => ErrNotFound_text
  | sql_ErrNoRows => "sql: no rows in result set"
  | core_ErrNotFound => core_ErrNotFound_text
  | errors_New msg => msg
  end.

(** [json.Marshal] *)
Definition json_Marshal `{Externals} (v : Value) : result bytes :=
  if marshalable v then Ok (json_encode v)
  else Err (errors_New "json: unsupported value").

(** [json.Marshal] of a [*ClientResponse]: only [Data] can be refused. *)
Definition json_Marshal_response `{Externals} (r : ClientResponse) : result bytes :=
  if marshalable (Data r) then Ok (json_encode_response r)
  else Err (errors_New "json: unsupported value").

(** ** [metadata.go] *)

Section MetadataLedger.
Context `{Externals} {DB : Type} `{Database DB}.

(** [CalcHash]: the multihash key of a slice of bytes. *)
Definition CalcHash (data : bytes) : result string :=
  match multihash_EncodeName (sha256_Sum data) "sha2-256" with
  | Err e => Err e
  | Ok mhBuf => Ok (hex_EncodeToString mhBuf)
  end.

(** The anonymous struct [HashableBytes] fills in. *)
Definition hashable (m : Metadata) : Value :=
  VStruct [ ("timestamp", VTime (Timestamp m));
            ("keyId", VString (KeyId m));
            ("subject", VString (Subject m));
            ("prev", VString (Prev m));
            ("meta", Meta_value (Meta m)) ].

Definition HashableBytes (m : Metadata) : result bytes :=
  json_Marshal (hashable m).

(** [calcHash] assigns [m.Hash] in place; the record comes back with the
    error. *)
Definition calcHash (m : Metadata) : Metadata * option error :=
  match HashableBytes m with
  | Err e => (m, Some e)
  | Ok data =>
      match multihash_EncodeName (sha256_Sum data) "sha2-256" with
      | Err e => (m, Some e)
      | Ok mhBuf => (set_Hash m (hex_EncodeToString mhBuf), None)
      end
  end.

(** [UnmarshalSQL]: [scan] is the outcome of [row.Scan]. *)
Definition UnmarshalSQL (m : Metadata) (scan : result MetadataRow)
  : Metadata * option error :=
  match scan with
  | Err e =>
      if decide (e = sql_ErrNoRows) then (m, Some ErrNotFound)
      else (m, Some e)
  | Ok cols =>
      let fill meta :=
        (mkMetadata (col_hash cols) (col_time_stamp cols) (col_key_id cols)
                    (col_subject cols) (col_prev cols) meta, None) in
      match col_meta cols with
      | None => fill None
      | Some metaBytes =>
          match json_Unmarshal_meta metaBytes with
          | Err e => (m, Some e)
          | Ok meta => fill meta
          end
      end
  end.

(** [&Metadata{}] *)
Definition Metadata_zero : Metadata :=
  mkMetadata "" Time_zero "" "" "" None.

Definition LatestMetadata (db : DB) (keyId subject : string)
  : Metadata * option error :=
  UnmarshalSQL Metadata_zero (QueryRow_latest_metadata db keyId subject).

Definition NextMetadata (db : DB) (keyId subject : string) : result Metadata :=
  match LatestMetadata db keyId subject with
  | (_, Some err) =>
      if decide (err = ErrNotFound)
      then Ok (mkMetadata "" Time_zero keyId subject "" (Some ∅))
      else Err err
  | (m, None) =>
      Ok (mkMetadata "" Time_zero (KeyId m) (Subject m) (Hash m) (Meta m))
  end.

(** What a call of [Write] leaves behind: the receiver as mutated, the
    database, the calls it made and the error it returns. *)
Record WriteResult : Type := mkWriteResult {
  w_record : Metadata;
  w_db : DB;
  w_events : list event;
  w_err : option error
}.

(** The [if str, ok := m.Meta["title"].(string); ok && str != ""] block of
    [Write]: the goroutine it starts, if any. *)
Definition title_goroutine (m : Metadata) : list event :=
  let '(str, ok) := assert_string (Meta_index (Meta m) "title") in
  if ok && negb (String.eqb str "")
  then [EvGo (GoTitleProjection (Subject m) str)]
  else [].

(** [Write]; [now] is the reading of [time.Now()]. *)
Definition Write (db : DB) (now : Time) (m : Metadata) : WriteResult :=
  let m := set_Timestamp m (Time_Round now Second) in
  match calcHash m with
  | (m, Some err) => mkWriteResult m db [] (Some err)
  | (m, None) =>
      match json_Marshal (Meta_value (Meta m)) with
      | Err err => mkWriteResult m db [] (Some err)
      | Ok metaBytes =>
          let row :=
            mkRow (Hash m)
                  (Time_Round (Time_In_UTC (Timestamp m)) Second)
                  (KeyId m) (Subject m) (Prev m) (Some metaBytes) in
          let '(db', err) := Exec_insert_metadata db row in
          mkWriteResult m db' (EvExec (InsertMetadata row) :: title_goroutine m) err
      end
  end.

(** The body of the goroutine [Write] starts. *)
Definition titleProjection (db : DB) (subject str : string) : DB * list event :=
  let u := mkUrl "" subject "" in
  match Url_Read db u with
  | (_, Some err) => (db, [EvLog (Error err)])
  | (u, None) =>
      match Url_Update db (set_Title u str) with
      | (db', Some err) => (db', [EvLog (Error err)])
      | (db', None) => (db', [])
      end
  end.

End MetadataLedger.

(** ** The websocket client *)

(** The capability the registry holds: [Type()], [Parse(reqId, data)] and,
    on the parsed request, [Exec()].  A handler runs against the rest of the
    process, [W]. *)
Record ClientRequest (W : Type) : Type := mkRequest {
  Exec : W -> ClientResponse * W
}.
Arguments Exec {W} _ _.
Arguments mkRequest {W} _.

Record ClientRequestAction (W : Type) : Type := mkReqAction {
  ReqType : string;
  Parse : string -> bytes -> ClientRequest W
}.
Arguments ReqType {W} _.
Arguments Parse {W} _ _ _.
Arguments mkReqAction {W} _ _.

(** What [c.conn.ReadMessage()] returns; [unexpected] is the verdict of
    [websocket.IsUnexpectedCloseError(err, websocket.CloseGoingAway)]. *)
Inductive read : Type :=
| ReadMessage (message : bytes)
| ReadError (err : error) (unexpected : bool).

Section Client.
Context `{Externals} {W : Type}.
(** The registry, [ClientReqActions]. *)
Variable ClientReqActions : list (ClientRequestAction W).

Definition SendResponse (res : ClientResponse) : list event :=
  match json_Marshal_response res with
  | Err err => [EvLog (Error err)]
  | Ok data => [EvSend data]
  end.

(** The loop of [HandleRequestAction] over the registry. *)
Fixpoint range_actions (acts : list (ClientRequestAction W)) (w : W)
         (req reqId : string) (silentError : bool) (data : bytes)
  : W * list event :=
  match acts with
  | [] => (w, [])
  | t :: rest =>
      if String.eqb (ReqType t) req then
        let '(res, w) := Exec (Parse t reqId data) w in
        let res := set_SilentError res silentError in
        let '(w, evs) := range_actions rest w req reqId silentError data in
        (w, EvCall (ReqType t) reqId :: SendResponse res ++ evs)
      else range_actions rest w req reqId silentError data
  end.

Definition HandleRequestAction (w : W) (req reqId : string)
           (silentError : bool) (data : bytes) : W * list event :=
  range_actions ClientReqActions w req reqId silentError data.

Definition HandleAction (w : W) (data : bytes) : W * list event :=
  match json_Unmarshal_action data with
  | Err err =>
      (w, EvLog ("error parsing action JSON: " +:+ Error err)
            :: SendResponse
                 (mkResponse "PARSE_ERROR" ""
                    ("action parsing error type: " +:+ Error err)
                    "" VNil false))
  | Ok action =>
      if strings_HasSuffix (act_Type action) "REQUEST" then
        let '(w, evs) :=
          HandleRequestAction w (act_Type action) (act_RequestId action)
                              (act_SilentError action) (act_Data action) in
        (w, EvLog (act_RequestId action +:+ ": " +:+ act_Type action) :: evs)
      else
        (w, [EvLog ("unrecognized action: " +:+ act_Type action)])
  end.

(** [readPump] over the messages the peer sends; [close_err] is what
    [c.conn.Close()] returns inside the loop.  An exhausted list is a
    reader still waiting in [ReadMessage]. *)
Fixpoint readPump (reads : list read) (close_err : option error) (w : W)
  : W * list event :=
  match reads with
  | [] => (w, [])
  | ReadError err unexpected :: _ =>
      (w, (if unexpected then [EvLog ("error: " +:+ Error err)] else [])
          ++ EvClose
          :: match close_err with
             | Some e => [EvLog ("close connection error: " +:+ Error e)]
             | None => []
             end
          ++ [EvUnregister; EvClose])
  | ReadMessage message :: rest =>
      let '(w, evs) := HandleAction w message in
      let '(w, evs') := readPump rest close_err w in
      (w, evs ++ evs')
  end.

(** *** Reading a run *)

(** The registry entries [HandleRequestAction] selects for a type name. *)
Definition claiming (req : string) (acts : list (ClientRequestAction W))
  : list (ClientRequestAction W) :=
  List.filter (fun t => String.eqb (ReqType t) req) acts.

(** The responses of the entries [ts], each parsed and executed in turn
    against the process as the previous one left it. *)
Fixpoint responses (ts : list (ClientRequestAction W)) (w : W)
         (reqId : string) (data : bytes) : list ClientResponse :=
  match ts with
  | [] => []
  | t :: rest =>
      let '(res, w) := Exec (Parse t reqId data) w in
      res :: responses rest w reqId data
  end.

(** The process after the entries [ts] have all executed. *)
Fixpoint executed (ts : list (ClientRequestAction W)) (w : W)
         (reqId : string) (data : bytes) : W :=
  match ts with
  | [] => w
  | t :: rest => executed rest (snd (Exec (Parse t reqId data) w)) reqId data
  end.

End Client.

(** The messages enqueued on [c.send], in order. *)
Fixpoint sends (evs : list event) : list bytes :=
  match evs with
  | [] => []
  | EvSend data :: rest => data :: sends rest
  | _ :: rest => sends rest
  end.

(** The handler executions, in order. *)
Fixpoint calls (evs : list event) : list (string * string) :=
  match evs with
  | [] => []
  | EvCall type reqId :: rest => (type, reqId) :: calls rest
  | _ :: rest => calls rest
  end.

(** The calls that reach the database or the datastore. *)
Definition touches_storage (e : event) : bool :=
  match e with
  | EvExec _ | EvUrl _ _ => true
  | _ => false
  end.

(** ** Archiving *)

(** The datastore behind [core.Url]: [ParsedUrl], [Read], [Save] and [Get].
    [Read] and [Get] also hand back the receiver, which they fill in. *)
Class Datastore (Store : Type) : Type := {
  core_ParsedUrl : Url -> option error;
  core_Read : Store -> Url -> Url * option error;
  core_Save : Store -> Url -> Store * option error;
  core_Get : Store -> Url -> Store * Url * list Link * option error
}.

Section Archive.
Context `{Externals} {DB : Type} `{Database DB} {Store : Type} `{Datastore Store}.
(** [FetchOutboundLinksAct{}.SuccessType()], declared elsewhere. *)
Variable FetchOutboundLinks_SuccessType : string.

Definition ValidArchivingUrl (db : DB) (url : string) : option error :=
  match QueryRow_subprimer_exists db url with
  | Err err => Some err
  | Ok false =>
      Some (errors_New
              ("Oops! Only urls contained in subprimers can be archived. cannot archive "
               +:+ url))
  | Ok true => None
  end.

Definition archive_error (reqId msg : string) : ClientResponse :=
  mkResponse "URL_ARCHIVE_ERROR" reqId msg "" VNil false.

(** The [u.Read(store)] / [u.Save(store)] block both variants share:
    the store, the url, the calls made, and the error that ends the
    request, if any. *)
Definition read_or_save (store : Store) (u : Url)
  : Store * Url * list event * option error :=
  match core_Read store u with
  | (u', None) => (store, u', [EvUrl OpRead (Url_Url u)], None)
  | (u', Some err) =>
      if decide (err = core_ErrNotFound) then
        match core_Save store u' with
        | (store', None) =>
            (store', u', [EvUrl OpRead (Url_Url u); EvUrl OpSave (Url_Url u)], None)
        | (store', Some err') =>
            (store', u', [EvUrl OpRead (Url_Url u); EvUrl OpSave (Url_Url u)], Some err')
        end
      else (store, u', [EvUrl OpRead (Url_Url u)], Some err)
  end.

Definition url_set (type url key : string) (v : Value) : ClientResponse :=
  mkResponse type "server" "" "" (VMap [(key, v); ("url", VString url)]) false.

(** The goroutine [Client.ArchiveUrl] starts: one pass over the links. *)
Fixpoint crawlLinks (store : Store) (links : list Link) : Store * list event :=
  match links with
  | [] => (store, [])
  | l :: rest =>
      let url := Url_Url (Dst l) in
      let '(store, _, _, err) := core_Get store (Dst l) in
      let failed :=
        match err with
        | Some err =>
            EvLog (Error err)
              :: SendResponse (url_set "URL_SET_ERROR" url "error" (VString (Error err)))
        | None => []
        end in
      let '(store, evs) := crawlLinks store rest in
      (store,
       EvSleep (3 * Second)
         :: SendResponse (url_set "URL_SET_LOADING" url "loading" (VBool true))
         ++ EvUrl OpGet url
         :: failed
         ++ SendResponse (url_set "URL_SET_SUCCESS" url "success" (VBool true))
         ++ evs)
  end.

(** What one turn of that loop emits for a link whose GET returned [err]. *)
Definition link_events (url : string) (err : option error) : list event :=
  EvSleep (3 * Second)
    :: SendResponse (url_set "URL_SET_LOADING" url "loading" (VBool true))
    ++ EvUrl OpGet url
    :: match err with
       | Some err =>
           EvLog (Error err)
             :: SendResponse (url_set "URL_SET_ERROR" url "error" (VString (Error err)))
       | None => []
       end
    ++ SendResponse (url_set "URL_SET_SUCCESS" url "success" (VBool true)).

(** The errors the GETs of [links] return, the store threaded through. *)
Fixpoint get_outcomes (store : Store) (links : list Link) : list (option error) :=
  match links with
  | [] => []
  | l :: rest =>
      let '(store, _, _, err) := core_Get store (Dst l) in
      err :: get_outcomes store rest
  end.

(** [Client.ArchiveUrl]; [now] is the reading of [time.Now()]. *)
Definition Client_ArchiveUrl (db : DB) (store : Store) (now : Time)
           (reqId url : string) : DB * Store * list event :=
  match ValidArchivingUrl db url with
  | Some err =>
      (db, store,
       EvQuerySubprimers url :: EvLog (Error err)
         :: SendResponse (archive_error reqId (Error err)))
  | None =>
      let created := Time_In_UTC (Time_Round now Second) in
      let '(db, err) := Exec_insert_archive_request db created url "" in
      let intake := [EvQuerySubprimers url; EvExec (InsertArchiveRequest created url "")] in
      match err with
      | Some err =>
          (db, store,
           intake ++ EvLog (Error err) :: SendResponse (archive_error reqId (Error err)))
      | None =>
          let u := mkUrl url "" "" in
          match core_ParsedUrl u with
          | Some err =>
              (db, store,
               intake ++ EvLog ("archiving %s" +:+ url) :: EvLog (Error err)
                 :: SendResponse
                      (archive_error reqId ("url parse error: " +:+ Error err)))
          | None =>
              let '(store, u, resolve, err) := read_or_save store u in
              let resolved := intake ++ EvLog ("archiving %s" +:+ url) :: resolve in
              match err with
              | Some err =>
                  (db, store,
                   resolved ++ EvLog (Error err)
                     :: SendResponse (archive_error reqId "internal server error"))
              | None =>
                  let success :=
                    SendResponse
                      (mkResponse "URL_ARCHIVE_SUCCESS" reqId "" "URL" (VUrl u) false) in
                  let '(store, u', links, err) := core_Get store u in
                  let fetched := resolved ++ success ++ [EvUrl OpGet url] in
                  match err with
                  | Some err =>
                      (db, store,
                       fetched ++ EvLog (Error err)
                         :: SendResponse (archive_error reqId (Error err)))
                  | None =>
                      (db, store,
                       fetched
                         ++ SendResponse
                              (mkResponse FetchOutboundLinks_SuccessType "server" ""
                                          "LINK_ARRAY" (VLinks links) false)
                         ++ [EvGo (GoCrawlLinks links)])
                  end
              end
          end
      end
  end.

(** *** The callback flavoured [ArchiveUrl] *)

(** What [ArchiveUrl] has done when it returns: its three results, the
    calls of [done] made before returning, and whether the two goroutines
    were started. *)
Record ArchiveStart : Type := mkArchiveStart {
  as_store : Store;
  as_url : option Url;
  as_links : list Link;
  as_err : option error;
  as_done : list (option error);
  as_events : list event;
  as_started : bool
}.

Definition ArchiveUrl (store : Store) (url : string) : ArchiveStart :=
  let u := mkUrl url "" "" in
  match core_ParsedUrl u with
  | Some err => mkArchiveStart store None [] (Some err) [Some err] [] false
  | None =>
      let '(store, u, resolve, err) := read_or_save store u in
      match err with
      | Some err => mkArchiveStart store None [] (Some err) [Some err] resolve false
      | None =>
          let '(store, u', links, err) := core_Get store u in
          let evs := resolve ++ [EvUrl OpGet url] in
          match err with
          | Some err => mkArchiveStart store (Some u') links (Some err) [Some err] evs false
          | None => mkArchiveStart store (Some u') links None [] evs true
          end
      end
  end.

(** Where the fetching goroutine stands inside its loop body. *)
Inductive producer_pc : Type := AtGet | AtSend | AtSleep.

(** The two goroutines and the channel between them: the links still to
    do (the head is the current one), the buffered channel [errs], the
    counter [i] of the draining loop, whether that loop has returned, and
    the calls of [done] so far. *)
Record Batch : Type := mkBatch {
  b_store : Store;
  b_links : list Link;
  b_pc : producer_pc;
  b_errs : list (option error);
  b_i : nat;
  b_returned : bool;
  b_done : list (option error);
  b_events : list event
}.

Definition Batch_init (store : Store) (links : list Link) : Batch :=
  mkBatch store links AtGet [] 0 false [] [].

(** One move of the goroutine that fetches; [tasks] is [len(links)] as
    read before the goroutines start, the capacity of [errs]. *)
Definition producer_step (tasks : nat) (b : Batch) : option Batch :=
  match b_links b with
  | [] => None
  | l :: rest =>
      match b_pc b with
      | AtGet =>
          let '(store, _, _, err) := core_Get (b_store b) (Dst l) in
          Some (mkBatch store (b_links b) AtSend (b_errs b) (b_i b)
                        (b_returned b) (b_done b)
                        (b_events b ++ EvUrl OpGet (Url_Url (Dst l))
                           :: match err with
                              | Some err => [EvLog (Error err)]
                              | None => []
                              end))
      | AtSend =>
          if (length (b_errs b) <? tasks)%nat
          then Some (mkBatch (b_store b) (b_links b) AtSleep (b_errs b ++ [None])
                             (b_i b) (b_returned b) (b_done b) (b_events b))
          else None
      | AtSleep =>
          Some (mkBatch (b_store b) rest AtGet (b_errs b) (b_i b)
                        (b_returned b) (b_done b)
                        (b_events b ++ [EvSleep (3 * Second)]))
      end
  end.

(** One move of the goroutine that drains [errs] and calls [done]. *)
Definition aggregator_step (tasks : nat) (b : Batch) : option Batch :=
  if b_returned b then None
  else if (b_i b <? tasks)%nat then
    match b_errs b with
    | [] => None
    | None :: errs =>
        Some (mkBatch (b_store b) (b_links b) (b_pc b) errs (S (b_i b))
                      false (b_done b) (b_events b))
    | Some err :: errs =>
        Some (mkBatch (b_store b) (b_links b) (b_pc b) errs (b_i b)
                      true (b_done b ++ [Some err]) (b_events b))
    end
  else
    Some (mkBatch (b_store b) (b_links b) (b_pc b) (b_errs b) (b_i b)
                  true (b_done b ++ [None]) (b_events b)).

(** Any interleaving: either goroutine moves. *)
Definition batch_step (tasks : nat) (b b' : Batch) : Prop :=
  producer_step tasks b = Some b' \/ aggregator_step tasks b = Some b'.

(** A run of [n] moves. *)
Inductive batch_steps (tasks : nat) : nat -> Batch -> Batch -> Prop :=
| batch_refl b : batch_steps tasks 0 b b
| batch_next n b b' b'' :
    batch_steps tasks n b b' -> batch_step tasks b' b'' ->
    batch_steps tasks (S n) b b''.

(** Completions the fetching goroutine has yet to send. *)
Definition pending_sends (b : Batch) : nat :=
  match b_pc b with
  | AtSleep => length (b_links b) - 1
  | _ => length (b_links b)
  end.

(** What every reachable state satisfies: only nil travels through [errs];
    completions drained, buffered and still to come add up to [tasks]; the
    fetching goroutine is inside the loop body only while a link is left;
    and [done] has been called once, with nil, exactly if the draining loop
    has returned, which it does after [tasks] receives. *)
Definition batch_inv (tasks : nat) (b : Batch) : Prop :=
  Forall (fun e => e = None) (b_errs b) /\
  (b_i b + length (b_errs b) + pending_sends b = tasks)%nat /\
  (b_pc b <> AtGet -> b_links b <> []) /\
  (if b_returned b then b_done b = [None] /\ b_i b = tasks else b_done b = []).

(** Moves left: three per link to fetch, one per completion to drain, one
    for the final call of [done]. *)
Definition batch_measure (tasks : nat) (b : Batch) : nat :=
  (3 * length (b_links b)
   - match b_pc b with AtGet => 0 | AtSend => 1 | AtSleep => 2 end
   + (tasks - b_i b)
   + (if b_returned b then 0 else 1))%nat.

(** Nothing left to do: neither goroutine can move. *)
Definition batch_stuck (tasks : nat) (b : Batch) : Prop :=
  producer_step tasks b = None /\ aggregator_step tasks b = None.

(** A scheduler that runs whichever goroutine can move, the draining one
    first. *)
Fixpoint batch_run (fuel : nat) (tasks : nat) (b : Batch) : Batch :=
  match fuel with
  | O => b
  | S fuel =>
      match aggregator_step tasks b with
      | Some b' => batch_run fuel tasks b'
      | None =>
          match producer_step tasks b with
          | Some b' => batch_run fuel tasks b'
          | None => b
          end
      end
  end.

End Archive.

(** ** An in-memory instance

    Stand-ins for the collaborators, small enough to run the functions
    above on concrete inputs: a table of rows for the database, a table of
    pages for the datastore, a printer for the encoder. *)

Module Demo.

Definition quote (s : string) : string :=
  String "034"%char s +:+ String "034"%char EmptyString.

Fixpoint print (v : Value) : string :=
  let members :=
    fix members (kv : list (string * Value)) : string :=
      match kv with
      | [] => ""
      | [(k, x)] => quote k +:+ ":" +:+ print x
      | (k, x) :: rest => quote k +:+ ":" +:+ print x +:+ "," +:+ members rest
      end in
  match v with
  | VNil => "null"
  | VBool true => "true"
  | VBool false => "false"
  | VFloat (Finite m e) => pretty m +:+ "e" +:+ pretty e
  | VFloat _ => "NaN"
  | VString s => quote s
  | VTime t => quote (pretty (unixNano t) +:+ "ns" +:+ pretty (zoneOffset t))
  | VSlice l =>
      "[" +:+ (fix items (l : list Value) : string :=
                 match l with
                 | [] => ""
                 | [x] => print x
                 | x :: rest => print x +:+ "," +:+ items rest
                 end) l +:+ "]"
  | VMap kv => "{" +:+ members kv +:+ "}"
  | VStruct fs => "{" +:+ members fs +:+ "}"
  | VUrl u => "{" +:+ quote "url" +:+ ":" +:+ quote (Url_Url u) +:+ "}"
  | VLinks ls =>
      "[" +:+ String.concat "," (map (fun l => quote (Url_Url (Dst l))) ls) +:+ "]"
  | VChan => "chan"
  end.

Definition print_response (r : ClientResponse) : string :=
  print (VStruct [ ("Type", VString (Type_ r));
                   ("RequestId", VString (RequestId r));
                   ("Error", VString (Error_ r));
                   ("Schema", VString (Schema r));
                   ("Data", Data r);
                   ("SilentError", VBool (SilentError r)) ]).

(** Envelopes the stand-in decoder knows, in a wire syntax without
    quotes; anything else is a syntax error. *)
Definition envelopes : list (string * Action) :=
  [ ("{Type:URL_ARCHIVE_REQUEST,RequestId:r1,Data:{}}",
     mkAction "URL_ARCHIVE_REQUEST" "r1" false (list_byte_of_string "{}"));
    ("{Type:CHAT_MESSAGE,RequestId:r2}",
     mkAction "CHAT_MESSAGE" "r2" false []);
    ("{Type:REQUEST_STATUS,RequestId:r3}",
     mkAction "REQUEST_STATUS" "r3" false []);
    ("{Type:STATUS_REQUEST,RequestId:r4,SilentError:true}",
     mkAction "STATUS_REQUEST" "r4" true []) ].

Definition decode_action (data : bytes) : result Action :=
  match
    find (fun p => String.eqb (fst p) (string_of_list_byte data)) envelopes
  with
  | Some p => Ok (snd p)
  | None => Err (errors_New "invalid character in action")
  end.

#[global] Instance externals : Externals := {|
  sha256_Sum data := rev data;
  multihash_EncodeName digest name :=
    if String.eqb name "sha2-256"
    then Ok (x12 :: x20 :: digest)
    else Err (errors_New "unrecognized multihash name");
  json_encode v := list_byte_of_string (print v);
  json_encode_response r := list_byte_of_string (print_response r);
  json_Unmarshal_meta data :=
    if String.eqb (string_of_list_byte data) "null" then Ok None
    else if String.eqb (string_of_list_byte data) "{}" then Ok (Some ∅)
    else Err (errors_New "invalid character in meta");
  json_Unmarshal_action := decode_action;
  ErrNotFound_text := "Not Found";
  core_ErrNotFound_text := "Not Found"
|}.

(** The database: its tables, and a fault every statement reports when
    set. *)
Record MemDB : Type := mkMemDB {
  metadata : list MetadataRow;
  subprimers : list string;
  archive_requests : list (Time * string * string);
  urls : list Url;
  fault : option error
}.

Definition later (a b : MetadataRow) : MetadataRow :=
  if unixNano (col_time_stamp a) <? unixNano (col_time_stamp b) then b else a.

Definition latest (rows : list MetadataRow) (keyId subject : string)
  : option MetadataRow :=
  match
    filter (fun r => col_key_id r = keyId /\ col_subject r = subject) rows
  with
  | [] => None
  | r :: rest => Some (fold_left later rest r)
  end.

Definition lower (c : ascii) : ascii :=
  let n := nat_of_ascii c in
  if ((65 <=? n) && (n <=? 90))%nat then ascii_of_nat (n + 32) else c.

Fixpoint lowercase (s : string) : string :=
  match s with
  | EmptyString => EmptyString
  | String c rest => String (lower c) (lowercase rest)
  end.

(** [s ilike '%' || pattern || '%'] for patterns without wildcards of
    their own. *)
Definition ilike_contains (s pattern : string) : bool :=
  match index 0 (lowercase pattern) (lowercase s) with
  | Some _ => true
  | None => false
  end.

#[global] Instance database : Database MemDB := {|
  QueryRow_latest_metadata db keyId subject :=
    match fault db with
    | Some e => Err e
    | None =>
        match latest (metadata db) keyId subject with
        | Some r => Ok r
        | None => Err sql_ErrNoRows
        end
    end;
  Exec_insert_metadata db row :=
    match fault db with
    | Some e => (db, Some e)
    | None =>
        (mkMemDB (metadata db ++ [row]) (subprimers db) (archive_requests db)
                 (urls db) None, None)
    end;
  QueryRow_subprimer_exists db url :=
    match fault db with
    | Some e => Err e
    | None => Ok (existsb (ilike_contains url) (subprimers db))
    end;
  Exec_insert_archive_request db created url user :=
    match fault db with
    | Some e => (db, Some e)
    | None =>
        (mkMemDB (metadata db) (subprimers db)
                 (archive_requests db ++ [(created, url, user)])
                 (urls db) None, None)
    end;
  Url_Read db u :=
    match fault db with
    | Some e => (u, Some e)
    | None =>
        match find (fun x => String.eqb (Url_Hash x) (Url_Hash u)) (urls db) with
        | Some x => (x, None)
        | None => (u, Some ErrNotFound)
        end
    end;
  Url_Update db u :=
    match fault db with
    | Some e => (db, Some e)
    | None =>
        (mkMemDB (metadata db) (subprimers db) (archive_requests db)
                 (map (fun x => if String.eqb (Url_Hash x) (Url_Hash u) then u else x)
                      (urls db))
                 None, None)
    end
|}.

(** The datastore: the urls it holds, the outbound links of each page,
    and the urls whose GET fails. *)
Record MemStore : Type := mkMemStore {
  held : list string;
  pages : list (string * list string);
  unreachable : list string
}.

Definition mem (x : string) (l : list string) : bool := existsb (String.eqb x) l.

#[global] Instance datastore : Datastore MemStore := {|
  core_ParsedUrl u :=
    if String.eqb (Url_Url u) "" then Some (errors_New "empty url") else None;
  core_Read store u :=
    if mem (Url_Url u) (held store) then (u, None) else (u, Some core_ErrNotFound);
  core_Save store u :=
    (mkMemStore (Url_Url u :: held store) (pages store) (unreachable store), None);
  core_Get store u :=
    if mem (Url_Url u) (unreachable store)
    then (store, u, [], Some (errors_New ("GET " +:+ Url_Url u +:+ ": no such host")))
    else
      (store, u,
       match find (fun p => String.eqb (fst p) (Url_Url u)) (pages store) with
       | Some p => map (fun d => mkLink (mkUrl d "" "")) (snd p)
       | None => []
       end,
       None)
|}.

(** A process state for handlers: a counter of requests served. *)
Definition status_action (answer : string) : ClientRequestAction nat :=
  mkReqAction "STATUS_REQUEST"
    (fun reqId _ =>
       mkRequest (fun served =>
         (mkResponse "STATUS" reqId "" "" (VString answer) false, S served))).

Definition archive_action : ClientRequestAction nat :=
  mkReqAction "URL_ARCHIVE_REQUEST"
    (fun reqId _ =>
       mkRequest (fun served =>
         (mkResponse "URL_ARCHIVE_SUCCESS" reqId "" "" VNil false, S served))).

(** Two entries claim "STATUS_REQUEST". *)
Definition registry : list (ClientRequestAction nat) :=
  [ status_action "first"; archive_action; status_action "second" ].

Definition db0 : MemDB := mkMemDB [] ["example.com"] [] [] None.

Definition link_a : Link := mkLink (mkUrl "http://example.com/a" "" "").
Definition link_b : Link := mkLink (mkUrl "http://example.com/b" "" "").

Definition store0 : MemStore :=
  mkMemStore [] [("http://example.com/x", ["http://example.com/a"; "http://example.com/b"])]
             ["http://example.com/b"].

(** A clock reading half a second past a whole second, one hour east of
    UTC, and a record with a title. *)
Definition clock0 : Time := mkTime 1500000000500000000 3600.

Definition record0 : Metadata :=
  mkMetadata "" Time_zero "key1" "subject1" ""
             (Some (<["title" := VString "Example"]> ∅)).

(** The row [Write] hands to the insert for [record0] at [clock0]. *)
Definition row0 : MetadataRow :=
  match w_events (Write db0 clock0 record0) with
  | EvExec (InsertMetadata row) :: _ => row
  | _ => mkRow "" Time_zero "" "" "" None
  end.

(** A database whose statements fail. *)
Definition db_down : MemDB :=
  mkMemDB [] ["example.com"] [] [] (Some (errors_New "connection refused")).

(** A payload [json.Marshal] refuses: a channel next to the title. *)
Definition record_chan : Metadata :=
  mkMetadata "" Time_zero "key1" "subject1" ""
             (Some (<["title" := VString "Example"]> (<["listener" := VChan]> ∅))).

(** The same instant read from a clock in UTC. *)
Definition clock_utc : Time := mkTime 1500000000500000000 0.

(** A database that already holds one record of the chain. *)
Definition db1 : MemDB :=
  mkMemDB [mkRow "1220aa" (mkTime 1400000000000000000 0) "key1" "subject1" ""
                 (Some (list_byte_of_string "{}"))]
          ["example.com"] [] [] None.

End Demo.


(** ** The rest of [metadata.go] *)

Section MetadataQueries.
Context `{Externals} {DB : Type} `{Database DB}.
(** [db.Query] of
    [select ... from metadata where subject = $1 and deleted = false and
     meta is not null]: the error of the query, or the outcome of
    [Scan] for each row [res.Next()] steps to. *)
Variable Query_metadata_for_subject :
  DB -> string -> result (list (result MetadataRow)).

(** [String]: the abbreviated representation of a record. *)
Definition Metadata_String (m : Metadata) : string :=
  Hash m +:+ " : " +:+ KeyId m +:+ "." +:+ Subject m.

Definition metadataCols : string :=
  "hash, time_stamp, key_id, subject, prev, meta".

(** The [for res.Next()] loop of [MetadataForSubject]. *)
Fixpoint scan_rows (rows : list (result MetadataRow)) (metadata : list Metadata)
  : result (list Metadata) :=
  match rows with
  | [] => Ok metadata
  | row :: rest =>
      match UnmarshalSQL Metadata_zero row with
      | (_, Some err) => Err err
      | (m, None) => scan_rows rest (metadata ++ [m])
      end
  end.

Definition MetadataForSubject (db : DB) (subject : string) : result (list Metadata) :=
  match Query_metadata_for_subject db subject with
  | Err err => Err err
  | Ok rows => scan_rows rows []
  end.

(** [json.Marshal(v)] followed by [CalcHash], as in the body of the loop of
    [HashMaps]. *)
Definition hash_value (v : Value) : result string :=
  match json_Marshal v with
  | Err err => Err err
  | Ok value => CalcHash value
  end.

(** The [for k, v := range m.Meta] loop of [HashMaps], over the entries in
    the order the iteration visits them; the maps built so far come back
    with the error. *)
Fixpoint HashMaps_range (entries : list (string * Value))
         (keyMap : gmap string string) (valueMap : gmap string Value)
  : gmap string string * gmap string Value * option error :=
  match entries with
  | [] => (keyMap, valueMap, None)
  | (k, v) :: rest =>
      match hash_value v with
      | Err err => (keyMap, valueMap, Some err)
      | Ok hash => HashMaps_range rest (<[k := hash]> keyMap) (<[hash := v]> valueMap)
      end
  end.

(** [HashMaps]; [order] is the order in which [range] visits [m.Meta], some
    permutation of its entries. *)
Definition HashMaps (m : Metadata) (order : list (string * Value))
  : gmap string string * gmap string Value * option error * list event :=
  match Meta m with
  | None =>
      (∅, ∅,
       Some (errors_New "metablock has no metadata calculate hashmaps from"),
       [EvLog (Metadata_String m)])
  | Some _ => (HashMaps_range order ∅ ∅, [])
  end.

End MetadataQueries.

(** Whether a character is one of [0-9a-f]. *)
Definition is_hex_digit (c : ascii) : bool :=
  existsb (Ascii.eqb c) hextable.

(** ** [writePump] *)

Definition writeWait : Z := 10 * Second.
Definition pongWait : Z := 60 * Second.
Definition pingPeriod : Z := (pongWait * 9) / 10.
Definition maxMessageSize : Z := 32786.

(** What is written to the connection. *)
Inductive frame : Type :=
| TextMessage (data : bytes)
| CloseMessage
| PingMessage.

(** What the [select] of [writePump] wakes up with, and what the
    connection answers to the writes that follow: a message from [c.send]
    with the errors of [NextWriter] and of [w.Close], the closed channel,
    or a tick with the error of the ping's [WriteMessage]. *)
Inductive wake : Type :=
| Received (message : bytes) (next_writer_err flush_err : option error)
| ChannelClosed
| Tick (ping_err : option error).

(** The calls of [writePump] on the connection and the ticker; [PumpWrite]
    is a frame handed to the connection, whatever becomes of it. *)
Inductive pump_event : Type :=
| PumpSetWriteDeadline (d : Z)
| PumpWrite (f : frame)
| PumpTickerStop
| PumpConnClose.

(** The deferred function of [writePump]. *)
Definition pump_deferred : list pump_event := [PumpTickerStop; PumpConnClose].

(** [writePump] over the wake-ups of its [select]; the boolean tells
    whether it has returned.  An exhausted list is a writer still waiting in
    [select]. *)
Fixpoint writePump (wakes : list wake) : list pump_event * bool :=
  match wakes with
  | [] => ([], false)
  | Received message next_writer_err flush_err :: rest =>
      match next_writer_err with
      | Some _ => (PumpSetWriteDeadline writeWait :: pump_deferred, true)
      | None =>
          match flush_err with
          | Some _ =>
              (PumpSetWriteDeadline writeWait :: PumpWrite (TextMessage message)
                 :: pump_deferred, true)
          | None =>
              let '(evs, returned) := writePump rest in
              (PumpSetWriteDeadline writeWait :: PumpWrite (TextMessage message)
                 :: evs, returned)
          end
      end
  | ChannelClosed :: _ =>
      (PumpSetWriteDeadline writeWait :: PumpWrite CloseMessage :: pump_deferred, true)
  | Tick ping_err :: rest =>
      match ping_err with
      | Some _ =>
          (PumpSetWriteDeadline writeWait :: PumpWrite PingMessage :: pump_deferred, true)
      | None =>
          let '(evs, returned) := writePump rest in
          (PumpSetWriteDeadline writeWait :: PumpWrite PingMessage :: evs, returned)
      end
  end.

(** The messages [c.send] delivered, in order. *)
Fixpoint offered (wakes : list wake) : list bytes :=
  match wakes with
  | [] => []
  | Received message _ _ :: rest => message :: offered rest
  | _ :: rest => offered rest
  end.

(** The text frames handed to the connection, in order. *)
Fixpoint texts (evs : list pump_event) : list bytes :=
  match evs with
  | [] => []
  | PumpWrite (TextMessage data) :: rest => data :: texts rest
  | _ :: rest => texts rest
  end.

(** A wake-up after which [writePump] returns. *)
Definition ends_pump (w : wake) : bool :=
  match w with
  | Received _ None None => false
  | Tick None => false
  | _ => true
  end.

(** Every frame is handed over right after a fresh write deadline. *)
Fixpoint deadline_before_each_write (evs : list pump_event) : bool :=
  match evs with
  | [] => true
  | PumpSetWriteDeadline d :: PumpWrite _ :: rest =>
      (d =? writeWait) && deadline_before_each_write rest
  | PumpWrite _ :: _ => false
  | _ :: rest => deadline_before_each_write rest
  end.

(** ** Reading a crawl *)

(** The urls fetched, in order. *)
Fixpoint fetched (evs : list event) : list string :=
  match evs with
  | [] => []
  | EvUrl OpGet url :: rest => url :: fetched rest
  | _ :: rest => fetched rest
  end.

(** The time slept, in all. *)
Fixpoint slept (evs : list event) : Z :=
  match evs with
  | [] => 0
  | EvSleep d :: rest => d + slept rest
  | _ :: rest => slept rest
  end.

(** The number of GETs that failed. *)
Definition failures (outcomes : list (option error)) : nat :=
  length (List.filter (fun o => match o with Some _ => true | None => false end) outcomes).

(** Whether an event is a [go] statement. *)
Definition is_go (e : event) : bool :=
  match e with EvGo _ => true | _ => false end.

(** ** [ArchiveUrlSync] *)

Section ArchiveSync.
Context `{Externals} {Store : Type} `{Datastore Store}.

(** Where the goroutine that called [ArchiveUrlSync] stands: inside the
    callback it passed to [ArchiveUrl], sending on [done]; at
    [err = <-done]; or returned.  [done] is unbuffered, and this goroutine
    is the only one that ever receives from it. *)
Inductive caller_pc : Type :=
| InCallback (err : option error)
| AtReceive
| Returned (u : option Url) (err : option error).

(** The caller, the url [ArchiveUrl] returned to it, and the two goroutines
    of [ArchiveUrl] if they were started. *)
Record Sync : Type := mkSync {
  s_caller : caller_pc;
  s_url : option Url;
  s_batch : option (@Batch Store)
}.

(** [ArchiveUrlSync] up to the point where [ArchiveUrl] either calls [done]
    itself, in the caller's goroutine, or returns with its goroutines
    started. *)
Definition Sync_init (store : Store) (url : string) : Sync :=
  let start := ArchiveUrl store url in
  match as_done start with
  | err :: _ => mkSync (InCallback err) (as_url start) None
  | [] =>
      mkSync AtReceive (as_url start)
             (Some (Batch_init (as_store start) (as_links start)))
  end.

(** The fetching goroutine moves on its own. *)
Definition sync_producer (tasks : nat) (s : Sync) : option Sync :=
  match s_batch s with
  | None => None
  | Some b =>
      match producer_step tasks b with
      | None => None
      | Some b' => Some (mkSync (s_caller s) (s_url s) (Some b'))
      end
  end.

(** The draining goroutine: a receive from [errs] moves on its own; its
    call of [done] is a send on the unbuffered channel, which goes through
    only together with the caller's receive. *)
Definition sync_aggregator (tasks : nat) (s : Sync) : option Sync :=
  match s_batch s with
  | None => None
  | Some b =>
      match aggregator_step tasks b with
      | None => None
      | Some b' =>
          if b_returned b' then
            match s_caller s with
            | AtReceive =>
                Some (mkSync (Returned (s_url s) (List.last (b_done b') None))
                             (s_url s) (Some b'))
            | _ => None
            end
          else Some (mkSync (s_caller s) (s_url s) (Some b'))
      end
  end.

(** A caller inside the callback sends on [done] with no goroutine to
    receive, and a caller at the receive moves only with a sender: the
    caller has no move of its own. *)
Definition sync_step (tasks : nat) (s s' : Sync) : Prop :=
  sync_producer tasks s = Some s' \/ sync_aggregator tasks s = Some s'.

Inductive sync_steps (tasks : nat) : nat -> Sync -> Sync -> Prop :=
| sync_refl s : sync_steps tasks 0 s s
| sync_next n s s' s'' :
    sync_steps tasks n s s' -> sync_step tasks s' s'' ->
    sync_steps tasks (S n) s s''.

Definition sync_stuck (tasks : nat) (s : Sync) : Prop :=
  sync_producer tasks s = None /\ sync_aggregator tasks s = None.

(** What every reachable state satisfies once the goroutines run: the
    caller waits exactly as long as the draining loop has not returned, and
    what it then returns is the url of [ArchiveUrl] and the value [done]
    was called with. *)
Definition sync_inv (tasks : nat) (u : option Url) (s : Sync) : Prop :=
  s_url s = u /\
  exists b,
    s_batch s = Some b /\ batch_inv tasks b /\
    (if b_returned b then s_caller s = Returned u None
     else s_caller s = AtReceive).

(** A scheduler, the draining goroutine first. *)
Fixpoint sync_run (fuel : nat) (tasks : nat) (s : Sync) : Sync :=
  match fuel with
  | O => s
  | S fuel =>
      match sync_aggregator tasks s with
      | Some s' => sync_run fuel tasks s'
      | None =>
          match sync_producer tasks s with
          | Some s' => sync_run fuel tasks s'
          | None => s
          end
      end
  end.

End ArchiveSync.

(** ** More of the in-memory instance *)

Module Samples.

(** Scan outcomes of three rows, the second with a payload that does not
    decode. *)
Definition good_row (hash : string) : result MetadataRow :=
  Ok (mkRow hash (mkTime 1400000000000000000 0) "key1" "subject1" ""
            (Some (list_byte_of_string "{}"))).

Definition bad_row : result MetadataRow :=
  Ok (mkRow "1220bb" (mkTime 1400000000000000000 0) "key1" "subject1" ""
            (Some (list_byte_of_string "{title"))).

Definition query_rows (db : Demo.MemDB) (subject : string)
  : result (list (result MetadataRow)) :=
  match Demo.fault db with
  | Some e => Err e
  | None =>
      Ok (map (fun r => Ok r)
              (List.filter (fun r => String.eqb (col_subject r) subject)
                           (Demo.metadata db)))
  end.

(** A record with an empty payload, and one with two entries of equal
    content. *)
Definition record_empty : Metadata :=
  mkMetadata "" Time_zero "key1" "subject1" "" (Some ∅).

Definition record_twins : Metadata :=
  mkMetadata "" Time_zero "key1" "subject1" ""
             (Some (<["a" := VString "same"]> (<["b" := VString "same"]> ∅))).

Definition record_nil : Metadata :=
  mkMetadata "1220cc" Time_zero "key1" "subject1" "" None.

(** A database that accepts the policy query and the audit insert, then a
    datastore whose entity cannot be read. *)
Definition store_broken : Demo.MemStore :=
  Demo.mkMemStore [] [] ["http://example.com/x"].

(** The row [Write] hands to the insert for [record_empty] on a clock in
    UTC, and that row read back. *)
Definition row_empty : MetadataRow :=
  match w_events (Write Demo.db0 Demo.clock_utc record_empty) with
  | EvExec (InsertMetadata row) :: _ => row
  | _ => mkRow "" Time_zero "" "" "" None
  end.

Definition reread_empty : Metadata :=
  fst (UnmarshalSQL Metadata_zero (Ok row_empty)).

(** The same on a clock one hour east of UTC. *)
Definition row_empty_east : MetadataRow :=
  match w_events (Write Demo.db0 Demo.clock0 record_empty) with
  | EvExec (InsertMetadata row) :: _ => row
  | _ => mkRow "" Time_zero "" "" "" None
  end.

(** The row written on the eastern clock, read back. *)
Definition reread_east : Metadata :=
  fst (UnmarshalSQL Metadata_zero (Ok row_empty_east)).

(** Collaborators whose digest keeps the first byte only, so that different
    inputs collide. *)
Definition short_digest : Externals := {|
  sha256_Sum data := firstn 1 data;
  multihash_EncodeName := @multihash_EncodeName Demo.externals;
  json_encode := @json_encode Demo.externals;
  json_encode_response := @json_encode_response Demo.externals;
  json_Unmarshal_meta := @json_Unmarshal_meta Demo.externals;
  json_Unmarshal_action := @json_Unmarshal_action Demo.externals;
  ErrNotFound_text := "Not Found";
  core_ErrNotFound_text := "Not Found"
|}.

(** A registry without an entry for URL_ARCHIVE_REQUEST. *)
Definition registry_status : list (ClientRequestAction nat) :=
  [ Demo.status_action "only" ].

(** Two messages and a tick, then the hub closes the channel while a third
    message would still have come. *)
Definition wakes_closed : list wake :=
  [ Received (list_byte_of_string "one") None None;
    Tick None;
    Received (list_byte_of_string "two") None None;
    ChannelClosed;
    Received (list_byte_of_string "three") None None ].

End Samples.

(** The value of a hex digit, and decoding of what [hex_EncodeToString]
    writes (the inverse direction, [hex.DecodeString]). *)
Definition unhex (c : ascii) : N :=
  let n := N_of_ascii c in
  if ((48 <=? n) && (n <=? 57))%N then (n - 48)%N else (n - 87)%N.

Definition byte_of_hex (hi lo : ascii) : option byte :=
  Byte.of_N (16 * unhex hi + unhex lo).

Fixpoint hex_DecodeString (s : string) : option bytes :=
  match s with
  | EmptyString => Some []
  | String hi (String lo rest) =>
      match byte_of_hex hi lo, hex_DecodeString rest with
      | Some b, Some bs => Some (b :: bs)
      | _, _ => None
      end
  | String _ EmptyString => None
  end.

(** What handling a message can emit: log lines, sends and handler calls. *)
Definition handling_event (e : event) : Prop :=
  match e with
  | EvLog _ | EvSend _ | EvCall _ _ => True
  | _ => False
  end.

(** Whether an event is a statement handed to [db.Exec]. *)
Definition is_exec (e : event) : bool :=
  match e with EvExec _ => true | _ => false end.

(** Moves left to the goroutines of a [Sync] state. *)
Definition sync_measure {Store : Type} (tasks : nat) (s : @Sync Store) : nat :=
  match s_batch s with
  | Some b => batch_measure tasks b
  | None => 0
  end.

(** The urls the fetching goroutine has still to GET. *)
Definition pending_urls {Store : Type} (b : @Batch Store) : list string :=
  map (fun l => Url_Url (Dst l))
      (match b_pc b with
       | AtGet => b_links b
       | _ => tl (b_links b)
       end).

(** The GETs done and the GETs to come are the links, in order; the time
    slept and the sleeps to come are three seconds per link. *)
Definition fetch_inv {Store : Type} (links : list Link) (b : @Batch Store) : Prop :=
  fetched (b_events b) ++ pending_urls b = map (fun l => Url_Url (Dst l)) links /\
  slept (b_events b) + 3 * Second * Z.of_nat (length (b_links b))
  = 3 * Second * Z.of_nat (length links).

(** * Properties *)

(** ** Rounding to the second *)

Lemma internal_offset_whole_seconds (n : Z) :
  (n + unixToInternal * Second) mod Second = n mod Second.
Proof. apply Z_mod_plus_full. Qed.

Lemma Time_Round_Second_unixNano (t : Time) :
  unixNano (Time_Round t Second) =
  if (unixNano t mod Second) * 2 <? Second
  then unixNano t - unixNano t mod Second
  else unixNano t + (Second - unixNano t mod Second).
Proof.
  unfold Time_Round. change (Second <=? 0) with false. cbv iota.
  rewrite internal_offset_whole_seconds.
  replace (unixNano t mod Second + unixNano t mod Second)
    with (unixNano t mod Second * 2) by lia.
  destruct (unixNano t mod Second * 2 <? Second); reflexivity.
Qed.

Example Time_Round_halfway_goes_up :
  Time_Round (mkTime 1499999999 0) Second = mkTime 1000000000 0 /\
  Time_Round (mkTime 1500000000 0) Second = mkTime 2000000000 0 /\
  Time_Round (mkTime (-1500000000) 0) Second = mkTime (-1000000000) 0 /\
  Time_Truncate (mkTime 1999999999 0) Second = mkTime 1000000000 0.
Proof. repeat split. Qed.

Example hex_EncodeToString_sample :
  hex_EncodeToString [x12; x20; x0a; xff] = "12200aff".
Proof. reflexivity. Qed.

Lemma Time_Round_Second_zone (t : Time) :
  zoneOffset (Time_Round t Second) = zoneOffset t.
Proof.
  unfold Time_Round. change (Second <=? 0) with false. cbv iota.
  destruct (_ <? _); reflexivity.
Qed.

Lemma Time_Round_Second_whole (t : Time) :
  unixNano (Time_Round t Second) mod Second = 0.
Proof.
  rewrite Time_Round_Second_unixNano.
  pose proof (Z.mod_pos_bound (unixNano t) Second eq_refl) as Hr.
  pose proof (Z.div_mod (unixNano t) Second) as Hd.
  assert (Hs : Second <> 0) by discriminate. specialize (Hd Hs).
  destruct (_ <? _).
  - replace (unixNano t - unixNano t mod Second)
      with (0 + (unixNano t / Second) * Second) by lia.
    rewrite Z_mod_plus_full. reflexivity.
  - replace (unixNano t + (Second - unixNano t mod Second))
      with (0 + (unixNano t / Second + 1) * Second) by lia.
    rewrite Z_mod_plus_full. reflexivity.
Qed.

Lemma Time_Round_Second_near (t : Time) :
  Z.abs (unixNano (Time_Round t Second) - unixNano t) * 2 <= Second.
Proof.
  rewrite Time_Round_Second_unixNano.
  pose proof (Z.mod_pos_bound (unixNano t) Second eq_refl) as Hr.
  destruct (Z.ltb_spec (unixNano t mod Second * 2) Second); lia.
Qed.

Lemma Time_Round_Second_fixed (t : Time) :
  unixNano t mod Second = 0 -> Time_Round t Second = t.
Proof.
  intros Hw. destruct t as [n z]. simpl in Hw.
  unfold Time_Round. change (Second <=? 0) with false. cbv iota.
  simpl unixNano. rewrite internal_offset_whole_seconds, Hw. simpl.
  f_equal. lia.
Qed.

Lemma Time_Round_UTC_Round (t : Time) :
  Time_Round (Time_In_UTC (Time_Round t Second)) Second
  = Time_In_UTC (Time_Round t Second).
Proof.
  apply Time_Round_Second_fixed. simpl. apply Time_Round_Second_whole.
Qed.

(** ** The ledger *)

Section MetadataFacts.
Context `{Externals} {DB : Type} `{Database DB}.

Lemma calcHash_ok (m m' : Metadata) :
  calcHash m = (m', None) ->
  exists data,
    HashableBytes m = Ok data /\ CalcHash data = Ok (Hash m') /\
    m' = set_Hash m (Hash m').
Proof.
  unfold calcHash, CalcHash. intros Hc.
  destruct (HashableBytes m) as [data|e]; [|discriminate].
  exists data. split; [reflexivity|].
  destruct (multihash_EncodeName (sha256_Sum data) "sha2-256"); [|discriminate].
  injection Hc as <-. split; reflexivity.
Qed.

Lemma calcHash_err (m m' : Metadata) (e : error) :
  calcHash m = (m', Some e) -> m' = m.
Proof.
  unfold calcHash. intros Hc.
  destruct (HashableBytes m) as [data|e']; [|congruence].
  destruct (multihash_EncodeName (sha256_Sum data) "sha2-256"); congruence.
Qed.

Lemma calcHash_keeps_fields (m m' : Metadata) (err : option error) :
  calcHash m = (m', err) ->
  Timestamp m' = Timestamp m /\ KeyId m' = KeyId m /\ Subject m' = Subject m
  /\ Prev m' = Prev m /\ Meta m' = Meta m.
Proof.
  destruct err as [e|]; intros Hc.
  - apply calcHash_err in Hc. subst. repeat split.
  - apply calcHash_ok in Hc as (data & _ & _ & ->). repeat split.
Qed.

(** The value of [m.Hash] on entry plays no part in [calcHash]. *)
Lemma calcHash_forgets_Hash (m m' : Metadata) (h : string) :
  calcHash m = (m', None) -> calcHash (set_Hash m h) = (m', None).
Proof.
  unfold calcHash, HashableBytes, hashable. simpl. intros Hc.
  destruct (json_Marshal _) as [data|e]; [|discriminate].
  destruct (multihash_EncodeName (sha256_Sum data) "sha2-256"); [|discriminate].
  injection Hc as <-. reflexivity.
Qed.

(** [Write], on the path that gets as far as the insert. *)
Lemma Write_inserted (db : DB) (now : Time) (m : Metadata) (row : MetadataRow) :
  In (EvExec (InsertMetadata row)) (w_events (Write db now m)) ->
  exists m1 metaBytes,
    calcHash (set_Timestamp m (Time_Round now Second)) = (m1, None) /\
    json_Marshal (Meta_value (Meta m)) = Ok metaBytes /\
    row = mkRow (Hash m1) (Time_In_UTC (Time_Round now Second))
                (KeyId m) (Subject m) (Prev m) (Some metaBytes) /\
    Write db now m =
      mkWriteResult m1 (fst (Exec_insert_metadata db row))
                    (EvExec (InsertMetadata row) :: title_goroutine m)
                    (snd (Exec_insert_metadata db row)).
Proof.
  unfold Write.
  destruct (calcHash (set_Timestamp m (Time_Round now Second)))
    as [m1 [e|]] eqn:Hc; [intros []|].
  pose proof (calcHash_keeps_fields _ _ _ Hc) as (Ht & Hk & Hs & Hp & Hm).
  simpl in Ht, Hk, Hs, Hp, Hm. rewrite Hm, Ht, Hk, Hs, Hp, Time_Round_UTC_Round.
  destruct (json_Marshal (Meta_value (Meta m))) as [metaBytes|e]; [|intros []].
  set (row' := mkRow _ _ _ _ _ _).
  assert (Hg : title_goroutine m1 = title_goroutine m)
    by (unfold title_goroutine; rewrite Hm, Hs; reflexivity).
  destruct (Exec_insert_metadata db row') as [db' err] eqn:He.
  rewrite Hg. simpl. intros [Hrow|Hin].
  - injection Hrow as <-. exists m1, metaBytes.
    rewrite He. repeat split; reflexivity.
  - exfalso. unfold title_goroutine in Hin.
    destruct (assert_string _) as [str ok].
    destruct (ok && negb (String.eqb str "")); simpl in Hin;
      [destruct Hin as [Hd|[]]; discriminate | destruct Hin].
Qed.

Lemma Write_timestamp (db : DB) (now : Time) (m : Metadata) :
  Timestamp (w_record (Write db now m)) = Time_Round now Second.
Proof.
  unfold Write.
  destruct (calcHash (set_Timestamp m (Time_Round now Second)))
    as [m1 err] eqn:Hc.
  pose proof (calcHash_keeps_fields _ _ _ Hc) as (Ht & _). simpl in Ht.
  destruct err; [exact Ht|].
  destruct (json_Marshal _); [|exact Ht].
  destruct (Exec_insert_metadata _ _). exact Ht.
Qed.

Lemma title_goroutine_spec (m : Metadata) (sub str : string) :
  In (EvGo (GoTitleProjection sub str)) (title_goroutine m) <->
  sub = Subject m /\ str <> "" /\
  exists g, Meta m = Some g /\ g !! "title" = Some (VString str).
Proof.
  unfold title_goroutine, Meta_index.
  split.
  - destruct (Meta m) as [g|]; simpl; [|intros []].
    destruct (g !! "title") as [v|] eqn:Hl; simpl; [|intros []].
    destruct v; simpl; try (intros []).
    destruct (String.eqb_spec s ""); simpl; [intros []|].
    intros [Hg|[]]. injection Hg as <- <-. repeat split; eauto.
  - intros (-> & Hne & g & -> & Hl). simpl. rewrite Hl. simpl.
    destruct (String.eqb_spec str ""); [contradiction|]. left. reflexivity.
Qed.

(** The projection reports nothing back: whatever [Url.Read] and
    [Url.Update] return, all it leaves besides the database is log lines. *)
Lemma titleProjection_only_logs (db : DB) (subject str : string) :
  Forall (fun e => exists line, e = EvLog line)
         (snd (titleProjection db subject str)).
Proof.
  unfold titleProjection.
  destruct (Url_Read db (mkUrl "" subject "")) as [u [err|]]; simpl.
  - repeat constructor. eauto.
  - destruct (Url_Update db (set_Title u str)) as [db' [err|]]; simpl;
      repeat constructor. eauto.
Qed.

End MetadataFacts.

Section LedgerProperties.
Context `{Externals} {DB : Type} `{Database DB}.

(** X26. The record [Write] leaves in memory carries the hash of its own
    five fields: for every row handed to the insert, the row's hash is the
    [Hash] of the receiver as [Write] leaves it, and that is [CalcHash]
    (sha2-256 multihash, hex-encoded) of the JSON serialization of the
    struct with exactly the receiver's timestamp, keyId, subject, prev and
    meta; the row's key, subject, prev and payload are the receiver's.  The
    hash field is no part of the input: whatever [Hash] held on entry, the
    record written is the same.  (The row's timestamp column is another
    matter: it is the UTC presentation of the stamp that was hashed.) *)
Theorem Write_hash_covers_five_fields
        (db : DB) (now : Time) (m : Metadata) (row : MetadataRow) :
  In (EvExec (InsertMetadata row)) (w_events (Write db now m)) ->
  let m' := w_record (Write db now m) in
  col_hash row = Hash m' /\
  (exists data,
      json_Marshal (VStruct [ ("timestamp", VTime (Timestamp m'));
                              ("keyId", VString (KeyId m'));
                              ("subject", VString (Subject m'));
                              ("prev", VString (Prev m'));
                              ("meta", Meta_value (Meta m')) ]) = Ok data /\
      CalcHash data = Ok (Hash m')) /\
  col_key_id row = KeyId m' /\ col_subject row = Subject m' /\
  col_prev row = Prev m' /\
  (exists metaBytes,
      col_meta row = Some metaBytes /\
      json_Marshal (Meta_value (Meta m')) = Ok metaBytes) /\
  (forall h, w_record (Write db now (set_Hash m h)) = m').
Proof.
  intros Hin m'.
  destruct (Write_inserted _ _ _ _ Hin) as (m1 & metaBytes & Hc & Hm & Hrow & Hw).
  assert (Hm' : m' = m1) by (subst m'; rewrite Hw; reflexivity).
  pose proof (calcHash_keeps_fields _ _ _ Hc) as (Ht & Hk & Hs & Hp & Hme).
  simpl in Ht, Hk, Hs, Hp, Hme.
  pose proof (calcHash_ok _ _ Hc) as (data & Hd & Hh & _).
  rewrite Hm'. repeat split.
  - rewrite Hrow. reflexivity.
  - exists data. split; [|exact Hh].
    rewrite Ht, Hk, Hs, Hp, Hme. exact Hd.
  - rewrite Hrow, Hk. reflexivity.
  - rewrite Hrow, Hs. reflexivity.
  - rewrite Hrow, Hp. reflexivity.
  - exists metaBytes. rewrite Hrow, Hme. split; [reflexivity|exact Hm].
  - intros h. unfold Write.
    change (set_Timestamp (set_Hash m h) (Time_Round now Second))
      with (set_Hash (set_Timestamp m (Time_Round now Second)) h).
    rewrite (calcHash_forgets_Hash _ _ h Hc).
    rewrite Hme, Hm. clear Hw. destruct (Exec_insert_metadata _ _). reflexivity.
Qed.

(** C2. [NextMetadata]: when the lookup reports [ErrNotFound] (which is
    what a scan without rows becomes), the result is a fresh record with
    the given keyId and subject, empty prev and an empty, non-nil payload
    map; when the lookup yields a head [H], the result carries [H]'s keyId,
    subject and meta with prev equal to [H]'s hash; any other lookup error
    is returned as the error, with no record. *)
Theorem NextMetadata_chain (db : DB) (keyId subject : string) :
  (forall m0, LatestMetadata db keyId subject = (m0, Some ErrNotFound) ->
     NextMetadata db keyId subject
     = Ok (mkMetadata "" Time_zero keyId subject "" (Some ∅))) /\
  (QueryRow_latest_metadata db keyId subject = Err sql_ErrNoRows ->
     NextMetadata db keyId subject
     = Ok (mkMetadata "" Time_zero keyId subject "" (Some ∅))) /\
  (forall head, LatestMetadata db keyId subject = (head, None) ->
     exists next,
       NextMetadata db keyId subject = Ok next /\
       KeyId next = KeyId head /\ Subject next = Subject head /\
       Meta next = Meta head /\ Prev next = Hash head) /\
  (forall m0 err, LatestMetadata db keyId subject = (m0, Some err) ->
     err <> ErrNotFound -> NextMetadata db keyId subject = Err err).
Proof.
  unfold NextMetadata. repeat split.
  - intros m0 ->. reflexivity.
  - intros Hq. unfold LatestMetadata, UnmarshalSQL. rewrite Hq. reflexivity.
  - intros head ->. eexists. repeat split.
  - intros m0 err -> Hne. destruct (decide (err = ErrNotFound)); [contradiction|].
    reflexivity.
Qed.

(** C3, as amended. [Write] stamps the record with the clock reading
    rounded to the nearest whole second (half a second rounds up), in the
    zone of the reading, before it hashes: the stamped value is within half
    a second of the reading, and the hash of a row handed to the insert is
    computed over the record carrying that stamp.  The row's timestamp
    column is the same instant presented in UTC. *)
Theorem Write_stamps_rounded_second (db : DB) (now : Time) (m : Metadata) :
  let r := Write db now m in
  Timestamp (w_record r) = Time_Round now Second /\
  unixNano (Timestamp (w_record r)) mod Second = 0 /\
  Z.abs (unixNano (Timestamp (w_record r)) - unixNano now) * 2 <= Second /\
  (unixNano now mod Second * 2 < Second ->
     unixNano (Timestamp (w_record r)) = unixNano now - unixNano now mod Second) /\
  (Second <= unixNano now mod Second * 2 ->
     unixNano (Timestamp (w_record r))
     = unixNano now - unixNano now mod Second + Second) /\
  (forall row, In (EvExec (InsertMetadata row)) (w_events r) ->
     col_time_stamp row = Time_In_UTC (Time_Round now Second) /\
     exists data,
       HashableBytes (set_Timestamp m (Time_Round now Second)) = Ok data /\
       CalcHash data = Ok (col_hash row)).
Proof.
  intros r. subst r. rewrite Write_timestamp.
  split; [reflexivity|].
  split; [apply Time_Round_Second_whole|].
  split; [apply Time_Round_Second_near|].
  rewrite Time_Round_Second_unixNano.
  split; [|split].
  - intros Hlt. apply Z.ltb_lt in Hlt. rewrite Hlt. reflexivity.
  - intros Hge. apply Z.ltb_ge in Hge. rewrite Hge. lia.
  - intros row Hin.
    destruct (Write_inserted _ _ _ _ Hin) as (m1 & metaBytes & Hc & Hm & Hrow & Hw).
    pose proof (calcHash_ok _ _ Hc) as (data & Hd & Hh & _).
    rewrite Hrow. simpl. split; [reflexivity|]. exists data. split; assumption.
Qed.

(** C10, as amended. On every call of [Write] that gets as far as the
    insert (hashing the record and serializing the payload succeeded), the
    returned error is exactly what the insert returned, and the title
    projection is started exactly when the payload holds a non-empty string
    under "title", for the record's subject and that title, whether the
    insert succeeded or failed.  Nothing the projection does later is part
    of what [Write] returns. *)
Theorem Write_projection_apart_from_insert
        (db : DB) (now : Time) (m : Metadata) (row : MetadataRow) :
  In (EvExec (InsertMetadata row)) (w_events (Write db now m)) ->
  w_err (Write db now m) = snd (Exec_insert_metadata db row) /\
  (forall g str,
      Meta m = Some g -> g !! "title" = Some (VString str) -> str <> "" ->
      w_events (Write db now m)
      = [EvExec (InsertMetadata row); EvGo (GoTitleProjection (Subject m) str)]) /\
  (forall sub str,
      In (EvGo (GoTitleProjection sub str)) (w_events (Write db now m)) ->
      sub = Subject m /\ str <> "" /\
      exists g, Meta m = Some g /\ g !! "title" = Some (VString str)) /\
  (forall db2 row2,
      In (EvExec (InsertMetadata row2)) (w_events (Write db2 now m)) ->
      List.filter (fun e => match e with EvGo _ => true | _ => false end)
                  (w_events (Write db2 now m))
      = List.filter (fun e => match e with EvGo _ => true | _ => false end)
                    (w_events (Write db now m))).
Proof.
  intros Hin.
  destruct (Write_inserted _ _ _ _ Hin) as (m1 & metaBytes & Hc & Hm & Hrow & Hw).
  rewrite Hw. simpl. split; [reflexivity|]. split; [|split].
  - intros g str Hg Hl Hne. f_equal.
    unfold title_goroutine, Meta_index. rewrite Hg. simpl. rewrite Hl. simpl.
    destruct (String.eqb_spec str ""); [contradiction|reflexivity].
  - intros sub str [Hd|Hg]; [discriminate|].
    apply title_goroutine_spec in Hg. exact Hg.
  - intros db2 row2 Hin2.
    destruct (Write_inserted _ _ _ _ Hin2) as (m2 & mb2 & _ & _ & _ & Hw2).
    rewrite Hw2. reflexivity.
Qed.

End LedgerProperties.

(** The ledger on the in-memory instance. *)

Lemma Write_hash_covers_five_fields_witness :
  In (EvExec (InsertMetadata Demo.row0))
     (w_events (Write Demo.db0 Demo.clock0 Demo.record0)) /\
  col_hash Demo.row0 = Hash (w_record (Write Demo.db0 Demo.clock0 Demo.record0)).
Proof.
  assert (Hin : In (EvExec (InsertMetadata Demo.row0))
                   (w_events (Write Demo.db0 Demo.clock0 Demo.record0)))
    by (vm_compute; left; reflexivity).
  split; [exact Hin|].
  exact (proj1 (Write_hash_covers_five_fields
                  Demo.db0 Demo.clock0 Demo.record0 Demo.row0 Hin)).
Defined.

Lemma NextMetadata_chain_witness :
  NextMetadata Demo.db0 "key1" "subject1"
  = Ok (mkMetadata "" Time_zero "key1" "subject1" "" (Some ∅)) /\
  exists next,
    NextMetadata Demo.db1 "key1" "subject1" = Ok next /\
    KeyId next = "key1" /\ Subject next = "subject1" /\
    Meta next = Some ∅ /\ Prev next = "1220aa".
Proof.
  split.
  - apply (proj1 (proj2 (NextMetadata_chain Demo.db0 "key1" "subject1"))).
    reflexivity.
  - apply (proj1 (proj2 (proj2 (NextMetadata_chain Demo.db1 "key1" "subject1")))
             (mkMetadata "1220aa" (mkTime 1400000000000000000 0)
                         "key1" "subject1" "" (Some ∅))).
    reflexivity.
Defined.

Example NextMetadata_storage_failure :
  NextMetadata Demo.db_down "key1" "subject1"
  = Err (errors_New "connection refused").
Proof. reflexivity. Qed.

(** C3, as stated, fails: at half a second past a whole second, on a clock
    already in UTC, the record is stamped with the next second, not with
    the reading truncated to the second. *)
Lemma Write_stamp_is_not_the_truncated_reading :
  Timestamp (w_record (Write Demo.db0 Demo.clock_utc Demo.record0))
  = mkTime 1500000001000000000 0 /\
  Time_In_UTC (Time_Truncate Demo.clock_utc Second)
  = mkTime 1500000000000000000 0 /\
  Timestamp (w_record (Write Demo.db0 Demo.clock_utc Demo.record0))
  <> Time_In_UTC (Time_Truncate Demo.clock_utc Second).
Proof.
  split; [vm_compute; reflexivity|].
  split; [vm_compute; reflexivity|].
  vm_compute. discriminate.
Qed.

Lemma Write_stamps_rounded_second_witness :
  In (EvExec (InsertMetadata Demo.row0))
     (w_events (Write Demo.db0 Demo.clock0 Demo.record0)) /\
  unixNano (Timestamp (w_record (Write Demo.db0 Demo.clock0 Demo.record0)))
  = 1500000000500000000 - 1500000000500000000 mod Second + Second /\
  col_time_stamp Demo.row0 = Time_In_UTC (Time_Round Demo.clock0 Second).
Proof.
  assert (Hin : In (EvExec (InsertMetadata Demo.row0))
                   (w_events (Write Demo.db0 Demo.clock0 Demo.record0)))
    by (vm_compute; left; reflexivity).
  destruct (Write_stamps_rounded_second Demo.db0 Demo.clock0 Demo.record0)
    as (_ & _ & _ & _ & Hup & Hrow).
  split; [exact Hin|]. split.
  - apply Hup. vm_compute. discriminate.
  - apply (Hrow Demo.row0 Hin).
Defined.

(** On a clock one hour east of UTC the stamp that is hashed keeps that
    zone; only the column handed to the insert is in UTC. *)
Example Write_hashes_the_local_stamp :
  Timestamp (w_record (Write Demo.db0 Demo.clock0 Demo.record0))
  = mkTime 1500000001000000000 3600 /\
  col_time_stamp Demo.row0 = mkTime 1500000001000000000 0.
Proof. split; vm_compute; reflexivity. Qed.

(** Before the insert [Write] can only fail in hashing or in serializing the
    payload; it then returns that error at once, with no insert and no
    goroutine. *)
Example Write_returns_early_on_unmarshalable_payload :
  Write Demo.db0 Demo.clock0 Demo.record_chan
  = mkWriteResult (set_Timestamp Demo.record_chan (Time_Round Demo.clock0 Second))
                  Demo.db0 [] (Some (errors_New "json: unsupported value")).
Proof. vm_compute. reflexivity. Qed.

Lemma Write_projection_apart_from_insert_witness :
  In (EvExec (InsertMetadata Demo.row0))
     (w_events (Write Demo.db_down Demo.clock0 Demo.record0)) /\
  w_err (Write Demo.db_down Demo.clock0 Demo.record0)
  = Some (errors_New "connection refused") /\
  w_events (Write Demo.db_down Demo.clock0 Demo.record0)
  = [EvExec (InsertMetadata Demo.row0);
     EvGo (GoTitleProjection "subject1" "Example")].
Proof.
  assert (Hin : In (EvExec (InsertMetadata Demo.row0))
                   (w_events (Write Demo.db_down Demo.clock0 Demo.record0)))
    by (vm_compute; left; reflexivity).
  split; [exact Hin|].
  destruct (Write_projection_apart_from_insert
              Demo.db_down Demo.clock0 Demo.record0 Demo.row0 Hin)
    as (Herr & Hgo & _).
  split.
  - rewrite Herr. reflexivity.
  - apply (Hgo (<["title" := VString "Example"]> ∅) "Example");
      [reflexivity | reflexivity | discriminate].
Defined.

(** ** Dispatch *)

Lemma substring_whole (s : string) : substring 0 (String.length s) s = s.
Proof. induction s as [|c s IH]; simpl; [reflexivity|]. rewrite IH. reflexivity. Qed.

Lemma substring_skip (pre s : string) (m : nat) :
  substring (String.length pre) m (pre +:+ s) = substring 0 m s.
Proof.
  induction pre as [|c pre IH]; simpl; [reflexivity|]. exact IH.
Qed.

Lemma length_app_string (a b : string) :
  String.length (a +:+ b) = (String.length a + String.length b)%nat.
Proof. induction a as [|c a IH]; simpl; [reflexivity|]. rewrite IH. reflexivity. Qed.

Lemma substring_split (n : nat) (s : string) :
  (n <= String.length s)%nat ->
  exists pre, s = pre +:+ substring n (String.length s - n) s.
Proof.
  revert s. induction n as [|n IH]; intros s Hn.
  - exists "". simpl. rewrite Nat.sub_0_r, substring_whole. reflexivity.
  - destruct s as [|c s]; simpl in Hn; [lia|].
    destruct (IH s) as [pre Hpre]; [lia|].
    exists (String c pre).
    change (String c s = String c (pre +:+ substring n (String.length s - n) s)).
    f_equal. exact Hpre.
Qed.

(** [strings_HasSuffix s suffix] holds exactly when [s] ends in [suffix]. *)
Lemma strings_HasSuffix_spec (s suffix : string) :
  strings_HasSuffix s suffix = true <-> exists pre, s = pre +:+ suffix.
Proof.
  unfold strings_HasSuffix. rewrite andb_true_iff, Nat.leb_le, String.eqb_eq.
  split.
  - intros [Hlen Hsub].
    destruct (substring_split (String.length s - String.length suffix) s)
      as [pre Hpre]; [lia|].
    exists pre.
    replace (String.length s - (String.length s - String.length suffix))%nat
      with (String.length suffix) in Hpre by lia.
    rewrite Hsub in Hpre. exact Hpre.
  - intros [pre ->]. rewrite length_app_string. split; [lia|].
    replace (String.length pre + String.length suffix - String.length suffix)%nat
      with (String.length pre) by lia.
    rewrite substring_skip. apply substring_whole.
Qed.

Lemma sends_app (a b : list event) : sends (a ++ b) = sends a ++ sends b.
Proof.
  induction a as [|e a IH]; simpl; [reflexivity|].
  destruct e; simpl; rewrite ?IH; reflexivity.
Qed.

Lemma calls_app (a b : list event) : calls (a ++ b) = calls a ++ calls b.
Proof.
  induction a as [|e a IH]; simpl; [reflexivity|].
  destruct e; simpl; rewrite ?IH; reflexivity.
Qed.

Section ClientFacts.
Context `{Externals} {W : Type}.
Variable ClientReqActions : list (ClientRequestAction W).

Lemma SendResponse_marshalable (res : ClientResponse) :
  marshalable (Data res) = true ->
  SendResponse res = [EvSend (json_encode_response res)].
Proof. unfold SendResponse, json_Marshal_response. intros ->. reflexivity. Qed.

Lemma SendResponse_calls (res : ClientResponse) : calls (SendResponse res) = [].
Proof.
  unfold SendResponse. destruct (json_Marshal_response res); reflexivity.
Qed.

(** The loop over the registry does what running the claiming entries one
    after the other does; the others are passed over. *)
Lemma range_actions_claiming
      (acts : list (ClientRequestAction W)) (w : W) (req reqId : string)
      (silentError : bool) (data : bytes) :
  range_actions acts w req reqId silentError data =
  (executed (claiming req acts) w reqId data,
   flat_map (fun res => EvCall req reqId
                          :: SendResponse (set_SilentError res silentError))
            (responses (claiming req acts) w reqId data)).
Proof.
  revert w. induction acts as [|t rest IH]; intros w; simpl; [reflexivity|].
  destruct (String.eqb_spec (ReqType t) req) as [Heq|Hne]; simpl.
  - destruct (Exec (Parse t reqId data) w) as [res w1]. simpl.
    rewrite IH, Heq. reflexivity.
  - apply IH.
Qed.

Lemma responses_length (ts : list (ClientRequestAction W)) (w : W)
      (reqId : string) (data : bytes) :
  length (responses ts w reqId data) = length ts.
Proof.
  revert w. induction ts as [|t rest IH]; intros w; simpl; [reflexivity|].
  destruct (Exec (Parse t reqId data) w). simpl. rewrite IH. reflexivity.
Qed.

End ClientFacts.

Section DispatchProperties.
Context `{Externals} {W : Type}.
Variable ClientReqActions : list (ClientRequestAction W).

(** C4. A message that fails to parse as the envelope makes [HandleAction]
    log the failure and enqueue exactly one response: type PARSE_ERROR, the
    parse failure's text in Error, an empty RequestId.  No handler runs,
    the process is untouched, and the read loop goes on with the next
    message: nothing closes or unregisters the connection. *)
Theorem HandleAction_parse_error (w : W) (data : bytes) (err : error) :
  json_Unmarshal_action data = Err err ->
  let reply :=
    mkResponse "PARSE_ERROR" "" ("action parsing error type: " +:+ Error err)
               "" VNil false in
  HandleAction ClientReqActions w data
  = (w, [EvLog ("error parsing action JSON: " +:+ Error err);
         EvSend (json_encode_response reply)]) /\
  sends (snd (HandleAction ClientReqActions w data)) = [json_encode_response reply] /\
  calls (snd (HandleAction ClientReqActions w data)) = [] /\
  (forall reads close_err,
      readPump ClientReqActions (ReadMessage data :: reads) close_err w
      = (fst (readPump ClientReqActions reads close_err w),
         [EvLog ("error parsing action JSON: " +:+ Error err);
          EvSend (json_encode_response reply)]
           ++ snd (readPump ClientReqActions reads close_err w))).
Proof.
  intros Hparse reply.
  assert (Hh : HandleAction ClientReqActions w data
               = (w, [EvLog ("error parsing action JSON: " +:+ Error err);
                      EvSend (json_encode_response reply)])).
  { unfold HandleAction. rewrite Hparse. reflexivity. }
  split; [exact Hh|]. rewrite Hh. simpl.
  split; [reflexivity|]. split; [reflexivity|].
  intros reads close_err. rewrite Hh.
  destruct (readPump ClientReqActions reads close_err w). reflexivity.
Qed.

(** C5. An envelope that parses and whose Type does not end in "REQUEST" is
    logged and dropped: no registered handler executes (the process is as
    it was) and nothing is enqueued. *)
Theorem HandleAction_drops_other_types (w : W) (data : bytes) (action : Action) :
  json_Unmarshal_action data = Ok action ->
  ~ (exists pre, act_Type action = pre +:+ "REQUEST") ->
  HandleAction ClientReqActions w data
  = (w, [EvLog ("unrecognized action: " +:+ act_Type action)]) /\
  sends (snd (HandleAction ClientReqActions w data)) = [] /\
  calls (snd (HandleAction ClientReqActions w data)) = [].
Proof.
  intros Hparse Hsuffix.
  assert (Hh : HandleAction ClientReqActions w data
               = (w, [EvLog ("unrecognized action: " +:+ act_Type action)])).
  { unfold HandleAction. rewrite Hparse.
    destruct (strings_HasSuffix (act_Type action) "REQUEST") eqn:Hs;
      [|reflexivity].
    apply strings_HasSuffix_spec in Hs. contradiction. }
  rewrite Hh. repeat split.
Qed.

(** An envelope whose Type ends in "REQUEST" is the one that is
    dispatched. *)
Lemma HandleAction_dispatches (w : W) (data : bytes) (action : Action) :
  json_Unmarshal_action data = Ok action ->
  (exists pre, act_Type action = pre +:+ "REQUEST") ->
  HandleAction ClientReqActions w data
  = (fst (HandleRequestAction ClientReqActions w (act_Type action)
            (act_RequestId action) (act_SilentError action) (act_Data action)),
     EvLog (act_RequestId action +:+ ": " +:+ act_Type action)
       :: snd (HandleRequestAction ClientReqActions w (act_Type action)
                 (act_RequestId action) (act_SilentError action) (act_Data action))).
Proof.
  intros Hparse Hsuffix. apply strings_HasSuffix_spec in Hsuffix.
  unfold HandleAction. rewrite Hparse, Hsuffix.
  destruct (HandleRequestAction _ _ _ _ _ _). reflexivity.
Qed.

(** C9. [HandleRequestAction] runs every registry entry whose type name
    equals the request's, in registry order and each against the process as
    the previous one left it: there are as many executions and as many
    responses as claiming entries, none is skipped after a first match, and
    each response goes to [SendResponse] with its SilentError replaced by
    the envelope's; responses [json.Marshal] accepts are enqueued, one per
    entry. *)
Theorem HandleRequestAction_runs_every_claimant
        (w : W) (req reqId : string) (silentError : bool) (data : bytes) :
  let ts := claiming req ClientReqActions in
  let rs := responses ts w reqId data in
  let run := HandleRequestAction ClientReqActions w req reqId silentError data in
  length rs = length ts /\
  run = (executed ts w reqId data,
         flat_map (fun res => EvCall req reqId
                                :: SendResponse (set_SilentError res silentError))
                  rs) /\
  calls (snd run) = map (fun _ => (req, reqId)) ts /\
  (Forall (fun res => marshalable (Data res) = true) rs ->
   sends (snd run)
   = map (fun res => json_encode_response (set_SilentError res silentError)) rs).
Proof.
  intros ts rs run.
  assert (Hrun : run = (executed ts w reqId data,
                        flat_map (fun res => EvCall req reqId
                                    :: SendResponse (set_SilentError res silentError))
                                 rs))
    by apply range_actions_claiming.
  split; [apply responses_length|]. split; [exact Hrun|].
  rewrite Hrun. simpl. subst rs. clear Hrun run.
  generalize w. subst ts.
  induction (claiming req ClientReqActions) as [|t rest IH]; intros w0.
  - split; [reflexivity|]. intros _. reflexivity.
  - simpl. destruct (Exec (Parse t reqId data) w0) as [res w1]. simpl.
    destruct (IH w1) as [IHc IHs].
    rewrite calls_app, sends_app, SendResponse_calls, IHc.
    split; [reflexivity|].
    intros Hall. inversion Hall as [|? ? Hres Hrest]; subst.
    rewrite (SendResponse_marshalable (set_SilentError res silentError) Hres).
    simpl. rewrite (IHs Hrest). reflexivity.
Qed.

End DispatchProperties.

(** Dispatch on the in-memory instance. *)

Lemma HandleAction_parse_error_witness :
  json_Unmarshal_action (list_byte_of_string "{Type:")
  = Err (errors_New "invalid character in action") /\
  sends (snd (HandleAction Demo.registry 0%nat (list_byte_of_string "{Type:")))
  = [json_encode_response
       (mkResponse "PARSE_ERROR" ""
          "action parsing error type: invalid character in action" "" VNil false)].
Proof.
  split; [reflexivity|].
  exact (proj1 (proj2 (HandleAction_parse_error Demo.registry 0%nat
                         (list_byte_of_string "{Type:")
                         (errors_New "invalid character in action") eq_refl))).
Defined.

Lemma HandleAction_drops_other_types_witness :
  HandleAction Demo.registry 0%nat
               (list_byte_of_string "{Type:REQUEST_STATUS,RequestId:r3}")
  = (0%nat, [EvLog "unrecognized action: REQUEST_STATUS"]).
Proof.
  assert (Hparse : json_Unmarshal_action
                     (list_byte_of_string "{Type:REQUEST_STATUS,RequestId:r3}")
                   = Ok (mkAction "REQUEST_STATUS" "r3" false []))
    by reflexivity.
  apply (HandleAction_drops_other_types Demo.registry 0%nat _ _ Hparse).
  intros Hends. apply strings_HasSuffix_spec in Hends. discriminate Hends.
Defined.

Lemma HandleRequestAction_runs_every_claimant_witness :
  sends (snd (HandleRequestAction Demo.registry 0%nat "STATUS_REQUEST" "r4" true []))
  = [json_encode_response (mkResponse "STATUS" "r4" "" "" (VString "first") true);
     json_encode_response (mkResponse "STATUS" "r4" "" "" (VString "second") true)]
  /\ fst (HandleRequestAction Demo.registry 0%nat "STATUS_REQUEST" "r4" true []) = 2%nat.
Proof.
  destruct (HandleRequestAction_runs_every_claimant
              Demo.registry 0%nat "STATUS_REQUEST" "r4" true [])
    as (_ & Hrun & _ & Hsends).
  split.
  - apply Hsends. repeat constructor.
  - rewrite Hrun. reflexivity.
Defined.

(** A response [json.Marshal] refuses is logged by [SendResponse], not
    enqueued. *)
Example SendResponse_unmarshalable :
  SendResponse (mkResponse "STATUS" "r4" "" "" VChan true)
  = [EvLog "json: unsupported value"].
Proof. reflexivity. Qed.

Example HandleAction_dispatches_both_claimants :
  calls (snd (HandleAction Demo.registry 0%nat
                (list_byte_of_string "{Type:STATUS_REQUEST,RequestId:r4,SilentError:true}")))
  = [("STATUS_REQUEST", "r4"); ("STATUS_REQUEST", "r4")].
Proof. vm_compute. reflexivity. Qed.

(** ** Archiving *)

Section ArchiveProperties.
Context `{Externals} {DB : Type} `{Database DB} {Store : Type} `{Datastore Store}.
Variable FetchOutboundLinks_SuccessType : string.

(** Whatever makes the policy check fail, the request ends there. *)
Lemma Client_ArchiveUrl_invalid
      (db : DB) (store : Store) (now : Time) (reqId url : string) (err : error) :
  ValidArchivingUrl db url = Some err ->
  Client_ArchiveUrl FetchOutboundLinks_SuccessType db store now reqId url
  = (db, store,
     [EvQuerySubprimers url; EvLog (Error err);
      EvSend (json_encode_response (archive_error reqId (Error err)))]).
Proof. unfold Client_ArchiveUrl. intros ->. reflexivity. Qed.

(** C6. When no allow-listed pattern matches the url (the [exists] query
    answers false), [Client.ArchiveUrl] ends at the policy check: it
    enqueues exactly one response, of type URL_ARCHIVE_ERROR, for the
    request id, whose Error is the policy failure's message verbatim;
    database and datastore are as they were, no statement is executed, no
    entity is read, saved or fetched, and no goroutine is started. *)
Theorem Client_ArchiveUrl_policy_rejection
        (db : DB) (store : Store) (now : Time) (reqId url : string) :
  QueryRow_subprimer_exists db url = Ok false ->
  let msg :=
    "Oops! Only urls contained in subprimers can be archived. cannot archive "
    +:+ url in
  let run := Client_ArchiveUrl FetchOutboundLinks_SuccessType db store now reqId url in
  ValidArchivingUrl db url = Some (errors_New msg) /\
  run = (db, store,
         [EvQuerySubprimers url; EvLog msg;
          EvSend (json_encode_response
                    (mkResponse "URL_ARCHIVE_ERROR" reqId msg "" VNil false))]) /\
  sends (snd run)
  = [json_encode_response (mkResponse "URL_ARCHIVE_ERROR" reqId msg "" VNil false)] /\
  List.filter touches_storage (snd run) = [] /\
  (forall g, ~ In (EvGo g) (snd run)).
Proof.
  intros Hq msg run.
  assert (Hv : ValidArchivingUrl db url = Some (errors_New msg))
    by (unfold ValidArchivingUrl; rewrite Hq; reflexivity).
  split; [exact Hv|].
  subst run. rewrite (Client_ArchiveUrl_invalid _ _ _ _ _ _ Hv). simpl.
  repeat split.
  intros g [Hd|[Hd|[Hd|[]]]]; discriminate.
Qed.

Lemma crawlLinks_cons (store : Store) (l : Link) (rest : list Link) :
  crawlLinks store (l :: rest)
  = (fst (crawlLinks (fst (fst (fst (core_Get store (Dst l))))) rest),
     link_events (Url_Url (Dst l)) (snd (core_Get store (Dst l)))
       ++ snd (crawlLinks (fst (fst (fst (core_Get store (Dst l))))) rest)).
Proof.
  simpl. destruct (core_Get store (Dst l)) as [[[store' u'] ls] err]. simpl.
  destruct (crawlLinks store' rest) as [store'' evs]. simpl. f_equal.
  unfold link_events. destruct err; reflexivity.
Qed.

(** The throttled loop, link by link: every link gets its turn whatever the
    earlier GETs returned. *)
Lemma crawlLinks_turns (store : Store) (links : list Link) :
  snd (crawlLinks store links)
  = flat_map (fun p => link_events (Url_Url (Dst (fst p))) (snd p))
             (combine links (get_outcomes store links))
  /\ length (get_outcomes store links) = length links.
Proof.
  revert store. induction links as [|l rest IH]; intros store.
  - split; reflexivity.
  - rewrite crawlLinks_cons. simpl get_outcomes.
    destruct (core_Get store (Dst l)) as [[[store' u'] ls] err]. simpl.
    destruct (IH store') as [IHe IHl]. rewrite IHe, IHl. split; reflexivity.
Qed.

(** What a turn enqueues: the loading event, then on success the success
    event alone, and on failure the error event followed by the success
    event as well. *)
Lemma link_events_sends (url : string) (err : option error) :
  sends (link_events url err)
  = json_encode_response (url_set "URL_SET_LOADING" url "loading" (VBool true))
    :: match err with
       | Some e =>
           [json_encode_response (url_set "URL_SET_ERROR" url "error" (VString (Error e)))]
       | None => []
       end
    ++ [json_encode_response (url_set "URL_SET_SUCCESS" url "success" (VBool true))].
Proof. destruct err; reflexivity. Qed.

End ArchiveProperties.

(** ** The two goroutines of the callback flavoured [ArchiveUrl] *)

Section BatchFacts.
Context `{Externals} {Store : Type} `{Datastore Store}.

Lemma batch_inv_init (store : Store) (links : list Link) :
  batch_inv (length links) (Batch_init store links).
Proof.
  unfold batch_inv, pending_sends. simpl.
  split; [constructor|]. split; [lia|]. split; [congruence|reflexivity].
Qed.

Lemma producer_step_inv (tasks : nat) (b b' : @Batch Store) :
  batch_inv tasks b -> producer_step tasks b = Some b' ->
  batch_inv tasks b' /\ S (batch_measure tasks b') = batch_measure tasks b.
Proof.
  unfold batch_inv, batch_measure, pending_sends, producer_step.
  destruct b as [st links pc errs i ret dn evs]. simpl.
  intros (Hall & Hcnt & Hpc & Hret) Hstep.
  destruct links as [|l rest]; [discriminate|]. simpl in *.
  destruct pc.
  - destruct (core_Get st (Dst l)) as [[[st' u'] ls] err].
    injection Hstep as <-. simpl.
    repeat split; try assumption; try lia; try congruence;
      try (destruct ret; lia).
  - destruct (Nat.ltb_spec (length errs) tasks); [|discriminate].
    injection Hstep as <-. simpl. rewrite length_app. simpl.
    repeat split; try assumption; try lia; try congruence;
      try (destruct ret; lia).
    apply Forall_app. split; [assumption|]. repeat constructor.
  - injection Hstep as <-. simpl.
    repeat split; try assumption; try lia; try congruence;
      try (destruct ret; lia).
Qed.

Lemma aggregator_step_inv (tasks : nat) (b b' : @Batch Store) :
  batch_inv tasks b -> aggregator_step tasks b = Some b' ->
  batch_inv tasks b' /\ S (batch_measure tasks b') = batch_measure tasks b.
Proof.
  unfold batch_inv, batch_measure, pending_sends, aggregator_step.
  destruct b as [st links pc errs i ret dn evs]. simpl.
  intros (Hall & Hcnt & Hpc & Hret) Hstep.
  destruct ret; [discriminate|].
  destruct (Nat.ltb_spec i tasks).
  - destruct errs as [|[e|] errs]; [discriminate| |].
    + inversion Hall; discriminate.
    + injection Hstep as <-. simpl in *.
      inversion Hall; subst.
      repeat split; try assumption; try lia; try (destruct pc; lia).
  - injection Hstep as <-. simpl in *. subst dn.
    repeat split; try assumption; try lia; try (destruct pc; lia).
Qed.

Lemma batch_step_inv (tasks : nat) (b b' : @Batch Store) :
  batch_inv tasks b -> batch_step tasks b b' ->
  batch_inv tasks b' /\ S (batch_measure tasks b') = batch_measure tasks b.
Proof.
  intros Hinv [Hp|Ha];
    [eapply producer_step_inv | eapply aggregator_step_inv]; eassumption.
Qed.

Lemma batch_steps_inv (tasks n : nat) (b b' : @Batch Store) :
  batch_inv tasks b -> batch_steps tasks n b b' ->
  batch_inv tasks b' /\ (n + batch_measure tasks b')%nat = batch_measure tasks b.
Proof.
  intros Hinv Hrun. induction Hrun as [b|n b b' b'' Hrun IH Hstep].
  - split; [assumption|reflexivity].
  - destruct (IH Hinv) as [Hinv' Hm].
    destruct (batch_step_inv _ _ _ Hinv' Hstep) as [Hinv'' Hm'].
    split; [assumption|lia].
Qed.

(** No deadlock: a state in which neither goroutine can move is one where
    all links are done, the channel is drained and [done] has been called. *)
Lemma batch_stuck_finished (tasks : nat) (b : @Batch Store) :
  batch_inv tasks b -> batch_stuck tasks b ->
  b_links b = [] /\ b_errs b = [] /\ b_i b = tasks /\ b_done b = [None].
Proof.
  unfold batch_inv, batch_stuck, pending_sends, producer_step, aggregator_step.
  destruct b as [st links pc errs i ret dn evs]. simpl.
  intros (Hall & Hcnt & Hpc & Hret) [Hp Ha].
  destruct ret.
  - destruct Hret as [-> ->].
    destruct links as [|l rest]; simpl in *.
    + destruct errs; [auto|simpl in Hcnt; lia].
    + destruct pc.
      * destruct (core_Get st (Dst l)) as [[[st' u'] ls] err]. discriminate.
      * lia.
      * discriminate.
  - exfalso. destruct (Nat.ltb_spec i tasks); [|discriminate].
    destruct errs as [|[e|] errs]; try discriminate.
    destruct links as [|l rest]; simpl in *.
    + destruct pc; try lia; exfalso; apply Hpc; congruence.
    + destruct pc.
      * destruct (core_Get st (Dst l)) as [[[st' u'] ls] err]. discriminate.
      * destruct (Nat.ltb_spec 0 tasks); [discriminate|lia].
      * discriminate.
Qed.

Lemma batch_moves_or_stuck (tasks : nat) (b : @Batch Store) :
  (exists b', batch_step tasks b b') \/ batch_stuck tasks b.
Proof.
  unfold batch_step, batch_stuck.
  destruct (producer_step tasks b) as [b'|]; [left; eauto|].
  destruct (aggregator_step tasks b) as [b'|]; [left; eauto|].
  right. split; reflexivity.
Qed.

(** The scheduler [batch_run] is one of the interleavings. *)
Lemma batch_run_steps (fuel tasks : nat) (b : @Batch Store) :
  exists n, batch_steps tasks n b (batch_run fuel tasks b).
Proof.
  assert (Hgen : forall fuel b0 b1 n,
             batch_steps tasks n b0 b1 ->
             exists n', batch_steps tasks n' b0 (batch_run fuel tasks b1)).
  { clear. induction fuel as [|fuel IH]; intros b0 b1 n Hrun; simpl.
    - eauto.
    - destruct (aggregator_step tasks b1) as [b2|] eqn:Ha.
      + apply (IH b0 b2 (S n)). econstructor; [eassumption|]. right. exact Ha.
      + destruct (producer_step tasks b1) as [b2|] eqn:Hp.
        * apply (IH b0 b2 (S n)). econstructor; [eassumption|]. left. exact Hp.
        * eauto. }
  apply (Hgen fuel b b 0%nat). constructor.
Qed.

(** With enough fuel the scheduler runs to the end. *)
Lemma batch_run_stuck (fuel tasks : nat) (b : @Batch Store) :
  batch_inv tasks b -> (batch_measure tasks b <= fuel)%nat ->
  batch_stuck tasks (batch_run fuel tasks b).
Proof.
  revert b. induction fuel as [|fuel IH]; intros b Hinv Hfuel; simpl.
  - destruct (batch_moves_or_stuck tasks b) as [[b' Hstep]|Hstuck];
      [|assumption].
    destruct (batch_step_inv _ _ _ Hinv Hstep) as [_ Hm]. lia.
  - destruct (aggregator_step tasks b) as [b'|] eqn:Ha.
    + destruct (aggregator_step_inv _ _ _ Hinv Ha) as [Hinv' Hm].
      apply IH; [assumption|lia].
    + destruct (producer_step tasks b) as [b'|] eqn:Hp.
      * destruct (producer_step_inv _ _ _ Hinv Hp) as [Hinv' Hm].
        apply IH; [assumption|lia].
      * split; assumption.
Qed.

End BatchFacts.

Section BatchProperties.
Context `{Externals} {Store : Type} `{Datastore Store}.

Lemma ArchiveUrl_started (store : Store) (url : string) :
  as_started (ArchiveUrl store url) = true ->
  as_done (ArchiveUrl store url) = [] /\ as_err (ArchiveUrl store url) = None.
Proof.
  unfold ArchiveUrl.
  destruct (core_ParsedUrl (mkUrl url "" "")); [discriminate|].
  destruct (read_or_save store (mkUrl url "" "")) as [[[store1 u] evs] [err|]];
    [discriminate|].
  destruct (core_Get store1 u) as [[[store2 u'] links] [err|]];
    [discriminate|].
  split; reflexivity.
Qed.

(** C8. Once [ArchiveUrl] has started its two goroutines (it has not
    called [done] itself), then in every interleaving of the two: whatever
    the GET of a link returns, the value sent on [errs] is nil; [done] has
    been called either not yet or exactly once with nil; no run is longer
    than four moves per link plus one; a state where neither goroutine can
    move has all links done, the channel drained after exactly [tasks]
    receives and [done] called once with nil; and from every reachable state
    the run completes in such a state. *)
Theorem ArchiveUrl_batch_done_once_with_nil
        (store : Store) (url : string) (n : nat) (b : @Batch Store) :
  let start := ArchiveUrl store url in
  let tasks := length (as_links start) in
  as_started start = true ->
  batch_steps tasks n (Batch_init (as_store start) (as_links start)) b ->
  as_done start = [] /\
  Forall (fun e => e = None) (b_errs b) /\
  (b_done b = [] \/ b_done b = [None]) /\
  (n <= 4 * tasks + 1)%nat /\
  (batch_stuck tasks b ->
   b_links b = [] /\ b_errs b = [] /\ b_i b = tasks /\ b_done b = [None]) /\
  ((exists b', batch_step tasks b b') \/ batch_stuck tasks b) /\
  (let final := batch_run (4 * tasks + 1) tasks b in
   batch_stuck tasks final /\ b_i final = tasks /\ b_done final = [None]).
Proof.
  intros start tasks Hstarted Hrun.
  destruct (ArchiveUrl_started _ _ Hstarted) as [Hdone _].
  pose proof (batch_inv_init (as_store start) (as_links start)) as Hinit.
  destruct (batch_steps_inv _ _ _ _ Hinit Hrun) as [Hinv Hm].
  fold tasks in Hm, Hinv.
  assert (Hm0 : batch_measure tasks (Batch_init (as_store start) (as_links start))
                = (4 * tasks + 1)%nat).
  { unfold batch_measure, Batch_init. simpl. fold tasks. lia. }
  split; [exact Hdone|].
  split; [apply Hinv|].
  split.
  { destruct Hinv as (_ & _ & _ & Hret).
    destruct (b_returned b); [right; apply Hret|left; exact Hret]. }
  split; [lia|].
  split; [apply batch_stuck_finished; exact Hinv|].
  split; [apply batch_moves_or_stuck|].
  intros final.
  assert (Hstuck : batch_stuck tasks final)
    by (apply batch_run_stuck; [exact Hinv|lia]).
  destruct (batch_run_steps (4 * tasks + 1) tasks b) as [k Hk].
  destruct (batch_steps_inv _ _ _ _ Hinv Hk) as [Hinv' _].
  destruct (batch_stuck_finished _ _ Hinv' Hstuck) as (_ & _ & Hi & Hd).
  repeat split; solve [apply Hstuck | exact Hi | exact Hd].
Qed.

End BatchProperties.

(** Archiving on the in-memory instance. *)

Example policy_admits_allow_listed_url :
  ValidArchivingUrl Demo.db0 "http://example.com/x" = None.
Proof. reflexivity. Qed.

Lemma Client_ArchiveUrl_policy_rejection_witness :
  QueryRow_subprimer_exists Demo.db0 "http://evil.test/x" = Ok false /\
  Client_ArchiveUrl "LINKS_SUCCESS" Demo.db0 Demo.store0 Demo.clock0
                    "r1" "http://evil.test/x"
  = (Demo.db0, Demo.store0,
     [EvQuerySubprimers "http://evil.test/x";
      EvLog "Oops! Only urls contained in subprimers can be archived. cannot archive http://evil.test/x";
      EvSend (json_encode_response
                (mkResponse "URL_ARCHIVE_ERROR" "r1"
                   "Oops! Only urls contained in subprimers can be archived. cannot archive http://evil.test/x"
                   "" VNil false))]).
Proof.
  assert (Hq : QueryRow_subprimer_exists Demo.db0 "http://evil.test/x" = Ok false)
    by reflexivity.
  split; [exact Hq|].
  exact (proj1 (proj2 (Client_ArchiveUrl_policy_rejection
                         "LINKS_SUCCESS" Demo.db0 Demo.store0 Demo.clock0
                         "r1" "http://evil.test/x" Hq))).
Defined.

(** An admitted url goes through intake, resolution and the first GET, and
    leaves the links to the goroutine. *)
Example Client_ArchiveUrl_admitted :
  Client_ArchiveUrl "LINKS_SUCCESS" Demo.db0 Demo.store0 Demo.clock_utc
                    "r1" "http://example.com/x"
  = (Demo.mkMemDB [] ["example.com"]
       [(mkTime 1500000001000000000 0, "http://example.com/x", "")] [] None,
     Demo.mkMemStore ["http://example.com/x"] (Demo.pages Demo.store0)
                     (Demo.unreachable Demo.store0),
     [EvQuerySubprimers "http://example.com/x";
      EvExec (InsertArchiveRequest (mkTime 1500000001000000000 0)
                                   "http://example.com/x" "");
      EvLog "archiving %shttp://example.com/x";
      EvUrl OpRead "http://example.com/x";
      EvUrl OpSave "http://example.com/x";
      EvSend (json_encode_response
                (mkResponse "URL_ARCHIVE_SUCCESS" "r1" "" "URL"
                   (VUrl (mkUrl "http://example.com/x" "" "")) false));
      EvUrl OpGet "http://example.com/x";
      EvSend (json_encode_response
                (mkResponse "LINKS_SUCCESS" "server" "" "LINK_ARRAY"
                   (VLinks [Demo.link_a; Demo.link_b]) false));
      EvGo (GoCrawlLinks [Demo.link_a; Demo.link_b])]).
Proof. vm_compute. reflexivity. Qed.

(** C7, where the code departs from it: for a link whose GET fails the
    throttled loop enqueues the loading event, then the error event, and
    then the success event too, so that link gets two terminal events. *)
Theorem crawlLinks_failed_link_error_and_success :
  crawlLinks Demo.store0 [Demo.link_b]
  = (Demo.store0,
     [EvSleep (3 * Second);
      EvSend (json_encode_response
                (url_set "URL_SET_LOADING" "http://example.com/b" "loading" (VBool true)));
      EvUrl OpGet "http://example.com/b";
      EvLog "GET http://example.com/b: no such host";
      EvSend (json_encode_response
                (url_set "URL_SET_ERROR" "http://example.com/b" "error"
                         (VString "GET http://example.com/b: no such host")));
      EvSend (json_encode_response
                (url_set "URL_SET_SUCCESS" "http://example.com/b" "success"
                         (VBool true)))]).
Proof. vm_compute. reflexivity. Qed.

(** The rest of the loop is as described: both links get their turn, each
    with one loading event before its GET, and the failure of the second
    does not stop anything. *)
Example crawlLinks_two_links :
  List.filter (fun e => match e with EvSleep _ | EvUrl _ _ => true | _ => false end)
              (snd (crawlLinks Demo.store0 [Demo.link_b; Demo.link_a]))
  = [EvSleep (3 * Second); EvUrl OpGet "http://example.com/b";
     EvSleep (3 * Second); EvUrl OpGet "http://example.com/a"]
  /\ length (sends (snd (crawlLinks Demo.store0 [Demo.link_b; Demo.link_a]))) = 5%nat.
Proof. split; vm_compute; reflexivity. Qed.

Lemma ArchiveUrl_batch_done_once_with_nil_witness :
  as_started (ArchiveUrl Demo.store0 "http://example.com/x") = true /\
  as_links (ArchiveUrl Demo.store0 "http://example.com/x")
  = [Demo.link_a; Demo.link_b] /\
  b_done (batch_run 9 2 (Batch_init (as_store (ArchiveUrl Demo.store0 "http://example.com/x"))
                                    [Demo.link_a; Demo.link_b]))
  = [None].
Proof.
  assert (Hs : as_started (ArchiveUrl Demo.store0 "http://example.com/x") = true)
    by reflexivity.
  split; [exact Hs|]. split; [reflexivity|].
  destruct (ArchiveUrl_batch_done_once_with_nil
              Demo.store0 "http://example.com/x" 0%nat _ Hs (batch_refl _ _))
    as (_ & _ & _ & _ & _ & _ & Hfinal).
  apply Hfinal.
Defined.

Example batch_logs_the_failed_link :
  b_events (batch_run 9 2 (Batch_init Demo.store0 [Demo.link_a; Demo.link_b]))
  = [EvUrl OpGet "http://example.com/a"; EvSleep (3 * Second);
     EvUrl OpGet "http://example.com/b";
     EvLog "GET http://example.com/b: no such host"; EvSleep (3 * Second)].
Proof. vm_compute. reflexivity. Qed.

(** * Further properties *)

(** ** Hashing *)

Lemma hex_byte_round_trip (b : byte) :
  byte_of_hex (hexdigit (N.shiftr (Byte.to_N b) 4))
              (hexdigit (N.land (Byte.to_N b) 15)) = Some b.
Proof. destruct b; reflexivity. Qed.

Lemma hex_byte_digits (b : byte) :
  is_hex_digit (hexdigit (N.shiftr (Byte.to_N b) 4)) = true /\
  is_hex_digit (hexdigit (N.land (Byte.to_N b) 15)) = true.
Proof. destruct b; split; reflexivity. Qed.

Lemma hex_round_trip (src : bytes) :
  hex_DecodeString (hex_EncodeToString src) = Some src.
Proof.
  induction src as [|b rest IH]; [reflexivity|].
  cbn [hex_EncodeToString hex_DecodeString].
  rewrite hex_byte_round_trip, IH. reflexivity.
Qed.

Lemma hex_length (src : bytes) :
  String.length (hex_EncodeToString src) = (2 * length src)%nat.
Proof.
  induction src as [|b rest IH]; [reflexivity|].
  cbn [hex_EncodeToString String.length length]. rewrite IH. lia.
Qed.

Lemma hex_digits (src : bytes) :
  forallb is_hex_digit (list_ascii_of_string (hex_EncodeToString src)) = true.
Proof.
  induction src as [|b rest IH]; [reflexivity|].
  cbn [hex_EncodeToString list_ascii_of_string forallb].
  destruct (hex_byte_digits b) as [-> ->]. exact IH.
Qed.

Section HashingProperties.
Context `{Externals}.

Lemma CalcHash_Ok (data : bytes) (h : string) :
  CalcHash data = Ok h ->
  exists mhBuf,
    multihash_EncodeName (sha256_Sum data) "sha2-256" = Ok mhBuf /\
    h = hex_EncodeToString mhBuf.
Proof.
  unfold CalcHash.
  destruct (multihash_EncodeName (sha256_Sum data) "sha2-256") as [mhBuf|e];
    [|discriminate].
  intros Hh. injection Hh as <-. eauto.
Qed.

(** X1. A hash [CalcHash] returns is the multihash buffer written out in
    lower-case hex: twice as many characters as the buffer has bytes, all
    of them in 0-9a-f; and [CalcHash] fails exactly when the multihash
    encoding does, with its error. *)
Theorem CalcHash_is_lowercase_hex (data : bytes) :
  (forall h, CalcHash data = Ok h ->
     exists mhBuf,
       multihash_EncodeName (sha256_Sum data) "sha2-256" = Ok mhBuf /\
       String.length h = (2 * length mhBuf)%nat /\
       forallb is_hex_digit (list_ascii_of_string h) = true /\
       hex_DecodeString h = Some mhBuf) /\
  (forall e, CalcHash data = Err e <->
             multihash_EncodeName (sha256_Sum data) "sha2-256" = Err e).
Proof.
  split.
  - intros h Hh. destruct (CalcHash_Ok _ _ Hh) as (mhBuf & Hm & ->).
    exists mhBuf. split; [exact Hm|]. split; [apply hex_length|].
    split; [apply hex_digits|apply hex_round_trip].
  - intros e. unfold CalcHash.
    destruct (multihash_EncodeName (sha256_Sum data) "sha2-256");
      split; intros He; congruence.
Qed.

(** X2. The hex form loses nothing: two inputs with the same hash have the
    same multihash buffer. *)
Theorem CalcHash_same_hash_same_multihash (a b : bytes) (h : string) :
  CalcHash a = Ok h -> CalcHash b = Ok h ->
  multihash_EncodeName (sha256_Sum a) "sha2-256"
  = multihash_EncodeName (sha256_Sum b) "sha2-256".
Proof.
  intros Ha Hb.
  destruct (CalcHash_Ok _ _ Ha) as (ma & -> & Hha).
  destruct (CalcHash_Ok _ _ Hb) as (mb & -> & Hhb).
  f_equal.
  assert (Hd : Some ma = Some mb)
    by (rewrite <- (hex_round_trip ma), <- (hex_round_trip mb); congruence).
  congruence.
Qed.

End HashingProperties.

(** ** Reading the ledger *)

Section LedgerReadProperties.
Context `{Externals} {DB : Type} `{Database DB}.
Variable Query_metadata_for_subject :
  DB -> string -> result (list (result MetadataRow)).

(** X3. [calcHash] settles: on an error the record is as it was; on
    success the five hashed fields are as they were and hashing the result
    again changes nothing. *)
Theorem calcHash_settles (m m' : Metadata) (err : option error) :
  calcHash m = (m', err) ->
  match err with
  | Some _ => m' = m
  | None =>
      calcHash m' = (m', None) /\
      Timestamp m' = Timestamp m /\ KeyId m' = KeyId m /\
      Subject m' = Subject m /\ Prev m' = Prev m /\ Meta m' = Meta m
  end.
Proof.
  intros Hc. destruct err as [e|].
  - exact (calcHash_err _ _ _ Hc).
  - split; [|exact (calcHash_keeps_fields _ _ _ Hc)].
    pose proof (calcHash_ok _ _ Hc) as (data & _ & _ & Hm').
    rewrite Hm' at 1. apply calcHash_forgets_Hash. exact Hc.
Qed.

Lemma scan_rows_Ok (rows : list (result MetadataRow)) (acc out : list Metadata) :
  scan_rows rows acc = Ok out <->
  exists ms,
    out = acc ++ ms /\
    Forall2 (fun row m => UnmarshalSQL Metadata_zero row = (m, None)) rows ms.
Proof.
  revert acc. induction rows as [|row rest IH]; intros acc; simpl.
  - split.
    + intros Ho. injection Ho as <-. exists []. rewrite app_nil_r.
      split; [reflexivity|constructor].
    + intros (ms & -> & Hall). inversion Hall. rewrite app_nil_r. reflexivity.
  - destruct (UnmarshalSQL Metadata_zero row) as [m [e|]] eqn:Hu.
    + split; [discriminate|].
      intros (ms & _ & Hall). inversion Hall; subst. congruence.
    + rewrite IH. split.
      * intros (ms & -> & Hall). exists (m :: ms).
        rewrite <- app_assoc. split; [reflexivity|]. constructor; assumption.
      * intros (ms & -> & Hall). inversion Hall as [|? m0 ? ms0 Hm0 Hrest]; subst.
        assert (m0 = m) by congruence. subst m0.
        exists ms0. rewrite <- app_assoc. split; [reflexivity|assumption].
Qed.

Lemma scan_rows_Err (rows : list (result MetadataRow)) (acc : list Metadata)
      (e : error) :
  scan_rows rows acc = Err e <->
  exists before row after m,
    rows = before ++ row :: after /\
    Forall (fun r => snd (UnmarshalSQL Metadata_zero r) = None) before /\
    UnmarshalSQL Metadata_zero row = (m, Some e).
Proof.
  revert acc. induction rows as [|row rest IH]; intros acc; simpl.
  - split; [discriminate|].
    intros (before & r & after & m & Hrows & _). destruct before; discriminate.
  - destruct (UnmarshalSQL Metadata_zero row) as [m [e0|]] eqn:Hu.
    + split.
      * intros He. injection He as <-. exists [], row, rest, m.
        split; [reflexivity|]. split; [constructor|exact Hu].
      * intros (before & r & after & m0 & Hrows & Hbefore & Hr).
        destruct before as [|b before]; simpl in Hrows.
        -- injection Hrows as <- <-. congruence.
        -- injection Hrows as <- ->. inversion Hbefore; subst.
           rewrite Hu in *. discriminate.
    + rewrite IH. split.
      * intros (before & r & after & m0 & -> & Hbefore & Hr).
        exists (row :: before), r, after, m0.
        split; [reflexivity|]. split; [|exact Hr].
        constructor; [rewrite Hu; reflexivity|exact Hbefore].
      * intros (before & r & after & m0 & Hrows & Hbefore & Hr).
        destruct before as [|b before]; simpl in Hrows.
        -- injection Hrows as <- <-. congruence.
        -- injection Hrows as <- ->. inversion Hbefore; subst.
           exists before, r, after, m0. split; [reflexivity|]. split; assumption.
Qed.

(** X4. [MetadataForSubject] is all or nothing over the rows of its query:
    it returns records exactly when every row unmarshals, one record per
    row and in the order of the rows (none for an empty result, which is no
    error); otherwise it returns the error of the first row that does not
    unmarshal, and no records.  An error of the query itself is returned
    as it is. *)
Theorem MetadataForSubject_all_or_nothing (db : DB) (subject : string) :
  (forall e, Query_metadata_for_subject db subject = Err e ->
     MetadataForSubject Query_metadata_for_subject db subject = Err e) /\
  (forall rows, Query_metadata_for_subject db subject = Ok rows ->
     (forall ms,
         MetadataForSubject Query_metadata_for_subject db subject = Ok ms <->
         Forall2 (fun row m => UnmarshalSQL Metadata_zero row = (m, None)) rows ms) /\
     (forall e,
         MetadataForSubject Query_metadata_for_subject db subject = Err e <->
         exists before row after m,
           rows = before ++ row :: after /\
           Forall (fun r => snd (UnmarshalSQL Metadata_zero r) = None) before /\
           UnmarshalSQL Metadata_zero row = (m, Some e))).
Proof.
  unfold MetadataForSubject. split.
  - intros e ->. reflexivity.
  - intros rows ->. split.
    + intros ms. rewrite scan_rows_Ok. split.
      * intros (ms' & -> & Hall). exact Hall.
      * intros Hall. exists ms. split; [reflexivity|exact Hall].
    + intros e. apply scan_rows_Err.
Qed.

End LedgerReadProperties.

(** ** [HashMaps] *)

Section HashMapsProperties.
Context `{Externals}.

Lemma HashMaps_range_keys (entries : list (string * Value))
      (km km' : gmap string string) (vm vm' : gmap string Value) :
  NoDup (entries.*1) ->
  HashMaps_range entries km vm = (km', vm', None) ->
  forall k h,
    km' !! k = Some h <->
    (exists v, (k, v) ∈ entries /\ hash_value v = Ok h)
    \/ ((k ∉ entries.*1) /\ km !! k = Some h).
Proof.
  revert km vm. induction entries as [|[k0 v0] rest IH]; intros km vm Hnd Hr k h.
  - simpl in Hr. injection Hr as <- <-. split.
    + intros Hk. right. split; [apply not_elem_of_nil|exact Hk].
    + intros [(v & Hin & _)|[_ Hk]]; [|exact Hk].
      apply elem_of_nil in Hin. destruct Hin.
  - simpl in Hr. destruct (hash_value v0) as [h0|e] eqn:Hh0; [|discriminate].
    rewrite fmap_cons in Hnd. apply NoDup_cons in Hnd as [Hk0 Hnd].
    rewrite (IH _ _ Hnd Hr k h). rewrite fmap_cons. simpl. split.
    + intros [(v & Hin & Hv)|[Hnot Hk]].
      * left. exists v. split; [right; exact Hin|exact Hv].
      * destruct (decide (k = k0)) as [->|Hne].
        -- rewrite lookup_insert_eq in Hk. injection Hk as <-.
           left. exists v0. split; [left|exact Hh0].
        -- rewrite lookup_insert_ne in Hk by congruence.
           right. split; [|exact Hk].
           apply not_elem_of_cons. split; assumption.
    + intros [(v & Hin & Hv)|[Hnot Hk]].
      * apply elem_of_cons in Hin as [Heq|Hin].
        -- injection Heq as -> ->. right. split; [exact Hk0|].
           rewrite lookup_insert_eq. congruence.
        -- left. exists v. split; assumption.
      * apply not_elem_of_cons in Hnot as [Hne Hnot].
        right. split; [exact Hnot|]. rewrite lookup_insert_ne by congruence.
        exact Hk.
Qed.

Lemma HashMaps_range_values_sound (entries : list (string * Value))
      (km km' : gmap string string) (vm vm' : gmap string Value)
      (err : option error) :
  HashMaps_range entries km vm = (km', vm', err) ->
  forall h v,
    vm' !! h = Some v ->
    vm !! h = Some v \/ ((exists k, (k, v) ∈ entries) /\ hash_value v = Ok h).
Proof.
  revert km vm. induction entries as [|[k0 v0] rest IH]; intros km vm Hr h v Hv.
  - simpl in Hr. injection Hr as <- <- <-. left. exact Hv.
  - simpl in Hr. destruct (hash_value v0) as [h0|e] eqn:Hh0.
    + destruct (IH _ _ Hr h v Hv) as [Hold|[[k Hin] Hh]].
      * destruct (decide (h0 = h)) as [->|Hne].
        -- rewrite lookup_insert_eq in Hold. injection Hold as <-.
           right. split; [exists k0; left|exact Hh0].
        -- rewrite lookup_insert_ne in Hold by exact Hne. left. exact Hold.
      * right. split; [exists k; right; exact Hin|exact Hh].
    + injection Hr as <- <- <-. left. exact Hv.
Qed.

Lemma HashMaps_range_values_complete (entries : list (string * Value))
      (km km' : gmap string string) (vm vm' : gmap string Value) :
  HashMaps_range entries km vm = (km', vm', None) ->
  (forall h, is_Some (vm !! h) -> is_Some (vm' !! h)) /\
  (forall k v, (k, v) ∈ entries ->
               exists h, hash_value v = Ok h /\ is_Some (vm' !! h)).
Proof.
  revert km vm. induction entries as [|[k0 v0] rest IH]; intros km vm Hr.
  - simpl in Hr. injection Hr as <- <-. split; [auto|].
    intros k v Hin. apply elem_of_nil in Hin. destruct Hin.
  - simpl in Hr. destruct (hash_value v0) as [h0|e] eqn:Hh0; [|discriminate].
    destruct (IH _ _ Hr) as [Hmono Hall]. split.
    + intros h Hs. apply Hmono.
      destruct (decide (h0 = h)) as [->|Hne].
      * rewrite lookup_insert_eq. eauto.
      * rewrite lookup_insert_ne by exact Hne. exact Hs.
    + intros k v Hin. apply elem_of_cons in Hin as [Heq|Hin].
      * injection Heq as -> ->. exists h0. split; [exact Hh0|].
        apply Hmono. rewrite lookup_insert_eq. eauto.
      * eapply Hall. exact Hin.
Qed.

Lemma HashMaps_range_error (entries : list (string * Value))
      (km : gmap string string) (vm : gmap string Value) :
  match (HashMaps_range entries km vm).2 with
  | None => forall k v, (k, v) ∈ entries -> exists h, hash_value v = Ok h
  | Some e => exists k v, (k, v) ∈ entries /\ hash_value v = Err e
  end.
Proof.
  revert km vm. induction entries as [|[k0 v0] rest IH]; intros km vm; simpl.
  - intros k v Hin. apply elem_of_nil in Hin. destruct Hin.
  - destruct (hash_value v0) as [h0|e] eqn:Hh0; simpl.
    + specialize (IH (<[k0:=h0]> km) (<[h0:=v0]> vm)).
      destruct (HashMaps_range rest _ _).2 as [e|].
      * destruct IH as (k & v & Hin & Hv). exists k, v.
        split; [right; exact Hin|exact Hv].
      * intros k v Hin. apply elem_of_cons in Hin as [Heq|Hin].
        -- injection Heq as -> ->. eauto.
        -- eapply IH. exact Hin.
    + exists k0, v0. split; [left|exact Hh0].
Qed.

Lemma order_entries (g : gmap string Value) (order : list (string * Value)) :
  order ≡ₚ map_to_list g ->
  NoDup (order.*1) /\ forall k v, (k, v) ∈ order <-> g !! k = Some v.
Proof.
  intros Hp. split.
  - rewrite Hp. apply NoDup_fst_map_to_list.
  - intros k v. rewrite Hp. apply elem_of_map_to_list.
Qed.

(** X5. When [HashMaps] succeeds, the key map has exactly the keys of the
    payload, in whatever order the iteration went, and maps each to the
    [CalcHash] of the JSON of its value. *)
Theorem HashMaps_keyMap (m : Metadata) (g : gmap string Value)
        (order : list (string * Value)) :
  Meta m = Some g -> order ≡ₚ map_to_list g ->
  (HashMaps m order).1.2 = None ->
  forall k h,
    (HashMaps m order).1.1.1 !! k = Some h <->
    exists v, g !! k = Some v /\ hash_value v = Ok h.
Proof.
  intros Hm Hp Herr k h. unfold HashMaps in *. rewrite Hm in *. simpl in *.
  destruct (order_entries _ _ Hp) as [Hnd Hin].
  destruct (HashMaps_range order ∅ ∅) as [[km vm] err] eqn:Hr.
  simpl in *. subst err.
  rewrite (HashMaps_range_keys _ _ _ _ _ Hnd Hr k h). split.
  - intros [(v & Hv & Hh)|[_ Hk]].
    + exists v. split; [apply Hin; exact Hv|exact Hh].
    + rewrite lookup_empty in Hk. discriminate.
  - intros (v & Hv & Hh). left. exists v. split; [apply Hin; exact Hv|exact Hh].
Qed.

(** X6. When [HashMaps] succeeds, the value map is keyed by content: every
    entry is a value of the payload stored under its own hash, and the hash
    the key map gives for a key leads, in the value map, to a value with
    that same hash (the value of that key, or another of equal hash). *)
Theorem HashMaps_valueMap (m : Metadata) (g : gmap string Value)
        (order : list (string * Value)) :
  Meta m = Some g -> order ≡ₚ map_to_list g ->
  (HashMaps m order).1.2 = None ->
  (forall h v,
      (HashMaps m order).1.1.2 !! h = Some v ->
      hash_value v = Ok h /\ exists k, g !! k = Some v) /\
  (forall k v,
      g !! k = Some v ->
      exists h v',
        (HashMaps m order).1.1.1 !! k = Some h /\
        (HashMaps m order).1.1.2 !! h = Some v' /\
        hash_value v = Ok h /\ hash_value v' = Ok h).
Proof.
  intros Hm Hp Herr. unfold HashMaps in *. rewrite Hm in *. simpl in *.
  destruct (order_entries _ _ Hp) as [Hnd Hin].
  destruct (HashMaps_range order ∅ ∅) as [[km vm] err] eqn:Hr.
  simpl in *. subst err.
  pose proof (HashMaps_range_values_sound _ _ _ _ _ _ Hr) as Hsound.
  destruct (HashMaps_range_values_complete _ _ _ _ _ Hr) as [_ Hcomplete].
  assert (Hvm : forall h v, vm !! h = Some v ->
                            hash_value v = Ok h /\ exists k, g !! k = Some v).
  { intros h v Hv. destruct (Hsound h v Hv) as [He|[[k Hk] Hh]].
    - rewrite lookup_empty in He. discriminate.
    - split; [exact Hh|]. exists k. apply Hin. exact Hk. }
  split; [exact Hvm|].
  intros k v Hk. apply Hin in Hk.
  destruct (Hcomplete k v Hk) as (h & Hh & [v' Hv']).
  exists h, v'. split; [|split; [exact Hv'|split; [exact Hh|apply (Hvm h v' Hv')]]].
  apply (HashMaps_range_keys _ _ _ _ _ Hnd Hr k h). left. eauto.
Qed.

(** X7. [HashMaps] fails on a nil payload, with both maps empty and the
    record logged; on a payload that is a map it succeeds exactly when every
    value can be marshalled and hashed, and an error it returns is the error
    of hashing one of the values. *)
Theorem HashMaps_errors (m : Metadata) (order : list (string * Value)) :
  (Meta m = None ->
   HashMaps m order
   = (∅, ∅, Some (errors_New "metablock has no metadata calculate hashmaps from"),
      [EvLog (Hash m +:+ " : " +:+ KeyId m +:+ "." +:+ Subject m)])) /\
  (forall g,
      Meta m = Some g -> order ≡ₚ map_to_list g ->
      ((HashMaps m order).1.2 = None <->
       forall k v, g !! k = Some v -> exists h, hash_value v = Ok h) /\
      (forall e, (HashMaps m order).1.2 = Some e ->
                 exists k v, g !! k = Some v /\ hash_value v = Err e)).
Proof.
  split.
  - intros Hm. unfold HashMaps. rewrite Hm. reflexivity.
  - intros g Hm Hp. unfold HashMaps. rewrite Hm. simpl.
    destruct (order_entries _ _ Hp) as [_ Hin].
    pose proof (HashMaps_range_error order ∅ ∅) as Herr.
    destruct (HashMaps_range order ∅ ∅).2 as [e|].
    + destruct Herr as (k & v & Hk & Hv). split.
      * split; [discriminate|]. intros Hall.
        apply Hin in Hk. destruct (Hall k v Hk) as [h Hh]. congruence.
      * intros e' He'. injection He' as <-. exists k, v.
        split; [apply Hin; exact Hk|exact Hv].
    + split; [|discriminate]. split; [|reflexivity].
      intros _ k v Hk. apply (Herr k v). apply Hin. exact Hk.
Qed.

End HashMapsProperties.

(** ** Writing to the ledger *)

Section LedgerWriteProperties.
Context `{Externals} {DB : Type} `{Database DB}.

Lemma Write_not_inserted (db : DB) (now : Time) (m : Metadata) :
  (forall row, ~ In (EvExec (InsertMetadata row)) (w_events (Write db now m))) ->
  w_events (Write db now m) = [] /\ w_db (Write db now m) = db /\
  exists e, w_err (Write db now m) = Some e.
Proof.
  unfold Write.
  destruct (calcHash (set_Timestamp m (Time_Round now Second))) as [m1 [e|]];
    [intros _; simpl; eauto|].
  destruct (json_Marshal (Meta_value (Meta m1))) as [metaBytes|e];
    [|intros _; simpl; eauto].
  destruct (Exec_insert_metadata db _) as [db' err] eqn:He. simpl.
  intros Hnot. exfalso. eapply Hnot. left. reflexivity.
Qed.

(** X8. [Write] inserts or does nothing: its first call is the insert, and
    when it returns without having reached the insert the database is as it
    was, no goroutine was started and the result is an error. *)
Theorem Write_inserts_or_does_nothing (db : DB) (now : Time) (m : Metadata) :
  match w_events (Write db now m) with
  | [] => w_db (Write db now m) = db /\ exists e, w_err (Write db now m) = Some e
  | first :: others =>
      (exists row, first = EvExec (InsertMetadata row)) /\
      Forall (fun e => exists g, e = EvGo g) others
  end.
Proof.
  destruct (w_events (Write db now m)) as [|first others] eqn:Hev.
  - destruct (Write_not_inserted db now m) as (_ & Hdb & He).
    + intros row Hin. rewrite Hev in Hin. destruct Hin.
    + split; assumption.
  - revert Hev. unfold Write.
    destruct (calcHash (set_Timestamp m (Time_Round now Second))) as [m1 [e|]];
      [discriminate|].
    destruct (json_Marshal (Meta_value (Meta m1))) as [metaBytes|e];
      [|discriminate].
    destruct (Exec_insert_metadata db _) as [db' err]. simpl.
    intros Hev. injection Hev as <- <-. split; [eauto|].
    unfold title_goroutine. destruct (assert_string _) as [str ok].
    destruct (ok && negb (String.eqb str "")); repeat constructor. eauto.
Qed.

(** X9. Hash determinism: two records that agree on keyId, subject, prev
    and meta, written at the same clock reading, to whatever databases and
    whatever their hash and timestamp fields held before, get the same hash
    and are handed to the insert as the same row. *)
Theorem Write_hash_determined_by_five_fields
        (db1 db2 : DB) (now : Time) (m1 m2 : Metadata) (row : MetadataRow) :
  KeyId m1 = KeyId m2 -> Subject m1 = Subject m2 ->
  Prev m1 = Prev m2 -> Meta m1 = Meta m2 ->
  In (EvExec (InsertMetadata row)) (w_events (Write db1 now m1)) ->
  In (EvExec (InsertMetadata row)) (w_events (Write db2 now m2)) /\
  w_record (Write db2 now m2) = w_record (Write db1 now m1).
Proof.
  intros Hk Hs Hp Hm Hin.
  destruct (Write_inserted _ _ _ _ Hin) as (r1 & metaBytes & Hc & Hmar & Hrow & Hw).
  assert (Hst : set_Timestamp m2 (Time_Round now Second)
                = set_Hash (set_Timestamp m1 (Time_Round now Second)) (Hash m2)).
  { destruct m1, m2. simpl in *. subst. reflexivity. }
  pose proof (calcHash_forgets_Hash _ _ (Hash m2) Hc) as Hc2.
  rewrite <- Hst in Hc2.
  pose proof (calcHash_keeps_fields _ _ _ Hc2) as (_ & Hk2 & Hs2 & Hp2 & Hm2).
  simpl in Hk2, Hs2, Hp2, Hm2.
  rewrite Hw. simpl. unfold Write. rewrite Hc2.
  rewrite Hm2, <- Hm, Hmar.
  pose proof (calcHash_keeps_fields _ _ _ Hc2) as (Ht2 & _). simpl in Ht2.
  rewrite Ht2, Hk2, Hs2, Hp2, Time_Round_UTC_Round, <- Hk, <- Hs, <- Hp, <- Hrow.
  destruct (Exec_insert_metadata db2 row). simpl.
  split; [left; reflexivity|reflexivity].
Qed.

(** X10. The chain grows by one link: if the row [Write] inserted is the
    one the lookup for its keyId and subject finds next, and its payload
    decodes, then [NextMetadata] returns a record for the same keyId and
    subject whose prev is the hash of the record written. *)
Theorem Write_then_NextMetadata
        (db db' : DB) (now : Time) (m : Metadata) (row : MetadataRow)
        (meta : option (gmap string Value)) :
  In (EvExec (InsertMetadata row)) (w_events (Write db now m)) ->
  QueryRow_latest_metadata db' (KeyId m) (Subject m) = Ok row ->
  (forall metaBytes, col_meta row = Some metaBytes ->
                     json_Unmarshal_meta metaBytes = Ok meta) ->
  NextMetadata db' (KeyId m) (Subject m)
  = Ok (mkMetadata "" Time_zero (KeyId m) (Subject m)
                   (Hash (w_record (Write db now m))) meta).
Proof.
  intros Hin Hq Hmeta.
  destruct (Write_inserted _ _ _ _ Hin) as (r1 & metaBytes & Hc & Hmar & Hrow & Hw).
  unfold NextMetadata, LatestMetadata, UnmarshalSQL. rewrite Hq.
  rewrite Hw. simpl. rewrite Hrow in *. simpl in *.
  rewrite (Hmeta metaBytes eq_refl). reflexivity.
Qed.

(** X11. Reading a written row back gives a record with the hash that was
    written, and with the same keyId, subject and prev; but its timestamp
    is the UTC presentation, so (the payload decoding to what was written)
    the struct it would be hashed over is the one that was hashed exactly
    when the clock reading was in UTC. *)
Theorem Write_reread_hash_input
        (db : DB) (now : Time) (m m2 : Metadata) (row : MetadataRow) :
  In (EvExec (InsertMetadata row)) (w_events (Write db now m)) ->
  UnmarshalSQL Metadata_zero (Ok row) = (m2, None) ->
  Meta m2 = Meta m ->
  Hash m2 = Hash (w_record (Write db now m)) /\
  KeyId m2 = KeyId m /\ Subject m2 = Subject m /\ Prev m2 = Prev m /\
  Timestamp m2 = Time_In_UTC (Timestamp (w_record (Write db now m))) /\
  (hashable m2 = hashable (w_record (Write db now m)) <-> zoneOffset now = 0).
Proof.
  intros Hin Hu Hmeta.
  destruct (Write_inserted _ _ _ _ Hin) as (r1 & metaBytes & Hc & Hmar & Hrow & Hw).
  pose proof (calcHash_keeps_fields _ _ _ Hc) as (Ht & Hk & Hs & Hp & Hm).
  simpl in Ht, Hk, Hs, Hp, Hm.
  rewrite Hw. simpl.
  unfold UnmarshalSQL in Hu. rewrite Hrow in Hu. simpl in Hu.
  destruct (json_Unmarshal_meta metaBytes) as [meta|e]; [|discriminate].
  injection Hu as <-. simpl in *.
  rewrite Ht. repeat split.
  - intros Heq. unfold hashable in Heq. simpl in Heq.
    rewrite Ht in Heq. injection Heq as Hz _. 
    rewrite <- Time_Round_Second_zone with (t := now). rewrite <- Hz. reflexivity.
  - intros Hz. unfold hashable. simpl.
    rewrite Ht, Hk, Hs, Hp, Hm, Hmeta.
    replace (Time_In_UTC (Time_Round now Second)) with (Time_Round now Second);
      [reflexivity|].
    pose proof (Time_Round_Second_zone now) as Hzone.
    destruct (Time_Round now Second) as [n z]. simpl in *.
    unfold Time_In_UTC. simpl. congruence.
Qed.

End LedgerWriteProperties.

(** ** The read loop *)

Section ReadPumpProperties.
Context `{Externals} {W : Type}.
Variable ClientReqActions : list (ClientRequestAction W).

Lemma SendResponse_handling (res : ClientResponse) :
  Forall handling_event (SendResponse res).
Proof.
  unfold SendResponse. destruct (json_Marshal_response res);
    repeat constructor.
Qed.

Lemma range_actions_handling (acts : list (ClientRequestAction W)) (w : W)
      (req reqId : string) (silentError : bool) (data : bytes) :
  Forall handling_event (snd (range_actions acts w req reqId silentError data)).
Proof.
  revert w. induction acts as [|t rest IH]; intros w; simpl; [constructor|].
  destruct (String.eqb (ReqType t) req); [|apply IH].
  destruct (Exec (Parse t reqId data) w) as [res w1].
  specialize (IH w1).
  destruct (range_actions rest w1 req reqId silentError data) as [w2 evs].
  simpl in *. constructor; [exact I|].
  apply Forall_app. split; [apply SendResponse_handling|exact IH].
Qed.

Lemma HandleAction_handling (w : W) (data : bytes) :
  Forall handling_event (snd (HandleAction ClientReqActions w data)).
Proof.
  unfold HandleAction. destruct (json_Unmarshal_action data) as [action|err].
  - destruct (strings_HasSuffix (act_Type action) "REQUEST").
    + unfold HandleRequestAction.
      pose proof (range_actions_handling ClientReqActions w (act_Type action)
                    (act_RequestId action) (act_SilentError action)
                    (act_Data action)) as Hr.
      destruct (range_actions _ _ _ _ _ _) as [w' evs]. simpl in *.
      constructor; [exact I|exact Hr].
    + repeat constructor.
  - simpl. constructor; [exact I|apply SendResponse_handling].
Qed.

(** X12. [readPump] ends at the first read error: whatever the peer sends
    after it is never handled, and the run ends by unregistering the client
    and closing the connection. *)
Theorem readPump_ends_at_read_error
        (reads later : list read) (err : error) (unexpected : bool)
        (close_err : option error) (w : W) :
  readPump ClientReqActions (reads ++ ReadError err unexpected :: later) close_err w
  = readPump ClientReqActions (reads ++ [ReadError err unexpected]) close_err w /\
  exists evs,
    snd (readPump ClientReqActions (reads ++ ReadError err unexpected :: later)
                  close_err w)
    = evs ++ [EvUnregister; EvClose].
Proof.
  revert w. induction reads as [|r reads IH]; intros w.
  - simpl. split; [reflexivity|].
    eexists. rewrite app_comm_cons, app_assoc. reflexivity.
  - destruct r as [message|err' unexpected'].
    + simpl. destruct (HandleAction ClientReqActions w message) as [w1 evs1].
      destruct (IH w1) as [Heq [evs Hevs]]. rewrite Heq. split; [reflexivity|].
      rewrite <- Heq.
      destruct (readPump ClientReqActions
                  (reads ++ ReadError err unexpected :: later) close_err w1)
        as [w2 evs2].
      simpl in *. exists (evs1 ++ evs). rewrite Hevs, app_assoc. reflexivity.
    + simpl. split; [reflexivity|].
      eexists. rewrite app_comm_cons, app_assoc. reflexivity.
Qed.

(** X13. As long as reads succeed the reader keeps the connection: a run
    over messages only, whatever they hold, emits nothing but log lines,
    sends and handler calls, and never unregisters or closes. *)
Theorem readPump_keeps_connection
        (messages : list bytes) (close_err : option error) (w : W) :
  let run := readPump ClientReqActions (map ReadMessage messages) close_err w in
  Forall handling_event (snd run) /\
  ~ In EvClose (snd run) /\ ~ In EvUnregister (snd run).
Proof.
  intros run.
  assert (Hall : Forall handling_event (snd run)).
  { subst run. revert w. induction messages as [|message rest IH]; intros w.
    - constructor.
    - simpl. pose proof (HandleAction_handling w message) as Hh.
      destruct (HandleAction ClientReqActions w message) as [w1 evs1].
      specialize (IH w1).
      destruct (readPump ClientReqActions (map ReadMessage rest) close_err w1)
        as [w2 evs2].
      simpl in *. apply Forall_app. split; assumption. }
  split; [exact Hall|].
  rewrite Forall_forall in Hall.
  split; intros Hin; apply list_elem_of_In in Hin; apply (Hall _ Hin).
Qed.

(** X14. A request nobody registered for is met with silence: an envelope
    whose Type ends in "REQUEST" but is claimed by no registry entry is
    logged, no handler runs and nothing is enqueued. *)
Theorem HandleAction_unclaimed_request (w : W) (data : bytes) (action : Action) :
  json_Unmarshal_action data = Ok action ->
  (exists pre, act_Type action = pre +:+ "REQUEST") ->
  claiming (act_Type action) ClientReqActions = [] ->
  HandleAction ClientReqActions w data
  = (w, [EvLog (act_RequestId action +:+ ": " +:+ act_Type action)]).
Proof.
  intros Hparse Hsuffix Hnone. apply strings_HasSuffix_spec in Hsuffix.
  unfold HandleAction, HandleRequestAction.
  rewrite Hparse, Hsuffix, range_actions_claiming, Hnone. reflexivity.
Qed.

End ReadPumpProperties.

(** ** The write loop *)

Lemma writePump_stops (before later : list wake) (w : wake) :
  ends_pump w = true ->
  writePump (before ++ w :: later) = writePump (before ++ [w]).
Proof.
  intros Hw. induction before as [|b before IH].
  - destruct w as [message [e1|] [e2|]| |[e|]]; try discriminate; reflexivity.
  - destruct b as [message [e1|] [e2|]| |[e|]]; simpl; try reflexivity;
      rewrite IH; reflexivity.
Qed.

(** X15. Queue order: the text frames [writePump] hands to the connection
    are the messages it took from [c.send], in the same order, up to the
    point where it returned; if nothing makes it return, they are all the
    messages. *)
Theorem writePump_fifo (wakes : list wake) :
  (exists unsent, offered wakes = texts (fst (writePump wakes)) ++ unsent) /\
  (existsb ends_pump wakes = false ->
   texts (fst (writePump wakes)) = offered wakes /\ snd (writePump wakes) = false).
Proof.
  induction wakes as [|w rest [[unsent IH1] IH2]].
  - split; [exists []; reflexivity|]. intros _. split; reflexivity.
  - destruct w as [message [e1|] [e2|]| |[e|]]; simpl.
    + split; [exists (message :: offered rest); reflexivity|discriminate].
    + split; [exists (message :: offered rest); reflexivity|discriminate].
    + split; [exists (offered rest); reflexivity|discriminate].
    + destruct (writePump rest) as [evs returned]. simpl in *. split.
      * exists unsent. rewrite IH1. reflexivity.
      * intros Hno. destruct (IH2 Hno) as [-> ->]. split; reflexivity.
    + split; [exists (offered rest); reflexivity|discriminate].
    + split; [exists (offered rest); reflexivity|discriminate].
    + destruct (writePump rest) as [evs returned]. simpl in *. split.
      * exists unsent. exact IH1.
      * intros Hno. destruct (IH2 Hno) as [-> ->]. split; reflexivity.
Qed.

(** X16. [writePump] returns exactly when [c.send] is closed or a write
    fails (it never returns otherwise); when it returns, the ticker is
    stopped and the connection closed, once each and as the last two calls;
    while it runs, neither happens. *)
Theorem writePump_returns (wakes : list wake) :
  (snd (writePump wakes) = existsb ends_pump wakes) /\
  (snd (writePump wakes) = true ->
   exists evs,
     fst (writePump wakes) = evs ++ [PumpTickerStop; PumpConnClose] /\
     ~ In PumpTickerStop evs /\ ~ In PumpConnClose evs) /\
  (snd (writePump wakes) = false ->
   ~ In PumpTickerStop (fst (writePump wakes)) /\
   ~ In PumpConnClose (fst (writePump wakes))).
Proof.
  induction wakes as [|w rest (IHr & IHt & IHf)].
  - split; [reflexivity|]. split; [discriminate|]. intros _. split; intros [].
  - destruct w as [message [e1|] [e2|]| |[e|]]; simpl;
      try (destruct (writePump rest) as [evs0 returned]; simpl in * );
      (split; [first [reflexivity|exact IHr]|]); (split; [|try discriminate]).
    + intros _. exists [PumpSetWriteDeadline writeWait].
      split; [reflexivity|]. split; intros [Hd|[]]; discriminate.
    + intros _. exists [PumpSetWriteDeadline writeWait].
      split; [reflexivity|]. split; intros [Hd|[]]; discriminate.
    + intros _.
      exists [PumpSetWriteDeadline writeWait; PumpWrite (TextMessage message)].
      split; [reflexivity|]. split; intros [Hd|[Hd|[]]]; discriminate.
    + intros Hret. destruct (IHt Hret) as (evs & -> & Hs & Hc).
      exists (PumpSetWriteDeadline writeWait :: PumpWrite (TextMessage message) :: evs).
      split; [reflexivity|].
      split; intros [Hd|[Hd|Hin]]; try discriminate; auto.
    + intros Hret. destruct (IHf Hret) as [Hs Hc].
      split; intros [Hd|[Hd|Hin]]; try discriminate; auto.
    + intros _. exists [PumpSetWriteDeadline writeWait; PumpWrite CloseMessage].
      split; [reflexivity|]. split; intros [Hd|[Hd|[]]]; discriminate.
    + intros _. exists [PumpSetWriteDeadline writeWait; PumpWrite PingMessage].
      split; [reflexivity|]. split; intros [Hd|[Hd|[]]]; discriminate.
    + intros Hret. destruct (IHt Hret) as (evs & -> & Hs & Hc).
      exists (PumpSetWriteDeadline writeWait :: PumpWrite PingMessage :: evs).
      split; [reflexivity|].
      split; intros [Hd|[Hd|Hin]]; try discriminate; auto.
    + intros Hret. destruct (IHf Hret) as [Hs Hc].
      split; intros [Hd|[Hd|Hin]]; try discriminate; auto.
Qed.

(** X17. Every frame [writePump] hands to the connection, message, ping or
    close, comes right after the write deadline has been set afresh to
    [writeWait]; and once [c.send] is closed the close frame is the last
    frame written, whatever is still waiting. *)
Theorem writePump_deadlines (wakes later : list wake) :
  deadline_before_each_write (fst (writePump wakes)) = true /\
  (existsb ends_pump wakes = false ->
   fst (writePump (wakes ++ ChannelClosed :: later))
   = fst (writePump wakes)
       ++ [PumpSetWriteDeadline writeWait; PumpWrite CloseMessage;
           PumpTickerStop; PumpConnClose]).
Proof.
  induction wakes as [|w rest [IHd IHc]].
  - split; [reflexivity|]. intros _. reflexivity.
  - destruct w as [message [e1|] [e2|]| |[e|]]; simpl;
      try (split; [reflexivity|discriminate]).
    + destruct (writePump rest) as [evs returned]. simpl in *.
      split; [exact IHd|]. intros Hno. specialize (IHc Hno).
      destruct (writePump (rest ++ ChannelClosed :: later)) as [evs' returned'].
      simpl in *. rewrite IHc. reflexivity.
    + destruct (writePump rest) as [evs returned]. simpl in *.
      split; [exact IHd|]. intros Hno. specialize (IHc Hno).
      destruct (writePump (rest ++ ChannelClosed :: later)) as [evs' returned'].
      simpl in *. rewrite IHc. reflexivity.
Qed.

(** ** The stages of [Client.ArchiveUrl] *)

Lemma filter_is_go_app (a b : list event) :
  List.filter is_go (a ++ b) = List.filter is_go a ++ List.filter is_go b.
Proof. apply List.filter_app. Qed.

Lemma fetched_app (a b : list event) : fetched (a ++ b) = fetched a ++ fetched b.
Proof.
  induction a as [|e a IH]; simpl; [reflexivity|].
  destruct e as [| |[]| | | | | | |]; simpl; rewrite ?IH; reflexivity.
Qed.

Lemma slept_app (a b : list event) : slept (a ++ b) = slept a + slept b.
Proof.
  induction a as [|e a IH]; simpl; [reflexivity|].
  destruct e; simpl; rewrite ?IH; lia.
Qed.

Section ArchiveStageProperties.
Context `{Externals} {DB : Type} `{Database DB} {Store : Type} `{Datastore Store}.
Variable FetchOutboundLinks_SuccessType : string.

Lemma read_or_save_quiet (store : Store) (u : Url) :
  sends (snd (fst (read_or_save store u))) = [] /\
  List.filter is_go (snd (fst (read_or_save store u))) = [] /\
  List.filter is_exec (snd (fst (read_or_save store u))) = [].
Proof.
  unfold read_or_save. destruct (core_Read store u) as [u' [err|]].
  - destruct (decide (err = core_ErrNotFound)).
    + destruct (core_Save store u') as [store' [err'|]]; repeat split.
    + repeat split.
  - repeat split.
Qed.

(** X18. Every call of [Client.ArchiveUrl] answers the client, in one of
    three ways: one URL_ARCHIVE_ERROR for the request; the
    URL_ARCHIVE_SUCCESS for the request followed by one URL_ARCHIVE_ERROR
    for it; or the URL_ARCHIVE_SUCCESS followed by the link array addressed
    to "server".  The crawl goroutine is started in the third case only,
    once, with the very links that were sent. *)
Theorem Client_ArchiveUrl_answers
        (db : DB) (store : Store) (now : Time) (reqId url : string) :
  let run := Client_ArchiveUrl FetchOutboundLinks_SuccessType db store now reqId url in
  let success u := mkResponse "URL_ARCHIVE_SUCCESS" reqId "" "URL" (VUrl u) false in
  (exists msg,
      sends (snd run) = [json_encode_response (archive_error reqId msg)] /\
      List.filter is_go (snd run) = []) \/
  (exists u msg,
      sends (snd run)
      = [json_encode_response (success u);
         json_encode_response (archive_error reqId msg)] /\
      List.filter is_go (snd run) = []) \/
  (exists u links,
      sends (snd run)
      = [json_encode_response (success u);
         json_encode_response
           (mkResponse FetchOutboundLinks_SuccessType "server" "" "LINK_ARRAY"
                       (VLinks links) false)] /\
      List.filter is_go (snd run) = [EvGo (GoCrawlLinks links)]).
Proof.
  intros run success. subst run. unfold Client_ArchiveUrl.
  destruct (ValidArchivingUrl db url) as [e|].
  { left. eexists. split; reflexivity. }
  destruct (Exec_insert_archive_request db _ url "") as [db1 [e|]].
  { left. eexists. split; reflexivity. }
  destruct (core_ParsedUrl (mkUrl url "" "")) as [e|].
  { left. eexists. split; reflexivity. }
  destruct (read_or_save_quiet store (mkUrl url "" "")) as (Hs & Hg & _).
  destruct (read_or_save store (mkUrl url "" "")) as [[[store1 u] resolve] [e|]];
    simpl in Hs, Hg.
  { left. eexists. simpl. rewrite sends_app, filter_is_go_app, Hs, Hg.
    split; reflexivity. }
  destruct (core_Get store1 u) as [[[store2 u'] links] [e|]].
  - right. left. exists u. eexists. simpl.
    rewrite !sends_app, !filter_is_go_app, Hs, Hg. split; reflexivity.
  - right. right. exists u, links. simpl.
    rewrite !sends_app, !filter_is_go_app, Hs, Hg. split; reflexivity.
Qed.

(** X19. Storage is reached in order: the audit row is inserted whenever
    the policy check passes, before the url is parsed; and the datastore is
    touched only after the policy check passed, the insert succeeded and the
    url parsed. *)
Theorem Client_ArchiveUrl_storage_order
        (db : DB) (store : Store) (now : Time) (reqId url : string) :
  let run := Client_ArchiveUrl FetchOutboundLinks_SuccessType db store now reqId url in
  let created := Time_In_UTC (Time_Round now Second) in
  (ValidArchivingUrl db url = None ->
   In (EvExec (InsertArchiveRequest created url "")) (snd run) /\
   fst (fst run) = fst (Exec_insert_archive_request db created url "")) /\
  (forall s, In (EvExec s) (snd run) ->
             ValidArchivingUrl db url = None /\
             s = InsertArchiveRequest created url "") /\
  (forall op u, In (EvUrl op u) (snd run) ->
                ValidArchivingUrl db url = None /\
                snd (Exec_insert_archive_request db created url "") = None /\
                core_ParsedUrl (mkUrl url "" "") = None).
Proof.
  intros run created. subst run. unfold Client_ArchiveUrl. fold created.
  assert (Hkeep : forall (f : event -> bool) e l,
             f e = true -> In e l -> In e (List.filter f l))
    by (intros f e l Hf Hin; apply filter_In; auto).
  destruct (ValidArchivingUrl db url) as [e|].
  { split; [discriminate|].
    split; [intros s|intros op u]; intros [Hd|[Hd|[Hd|[]]]]; discriminate. }
  destruct (Exec_insert_archive_request db created url "") as [db1 [e|]].
  { split; [intros _; split; [right; left; reflexivity|reflexivity]|].
    split; [intros s|intros op u]; simpl;
      intros [Hd|[Hd|[Hd|[Hd|[]]]]]; try discriminate.
    injection Hd as <-. split; reflexivity. }
  destruct (core_ParsedUrl (mkUrl url "" "")) as [e|].
  { split; [intros _; split; [right; left; reflexivity|reflexivity]|].
    split; [intros s|intros op u]; simpl;
      intros [Hd|[Hd|[Hd|[Hd|[Hd|[]]]]]]; try discriminate.
    injection Hd as <-. split; reflexivity. }
  destruct (read_or_save_quiet store (mkUrl url "" "")) as (_ & _ & Hx).
  destruct (read_or_save store (mkUrl url "" "")) as [[[store1 u] resolve] err].
  simpl in Hx.
  split; [intros _|split; [|intros op u0 _; repeat split]].
  - destruct err as [e|]; [|destruct (core_Get store1 u) as [[[store2 u'] links] [e|]]];
      (split; [right; left; reflexivity|reflexivity]).
  - intros s Hin. split; [reflexivity|].
    apply (Hkeep is_exec) in Hin; [|reflexivity].
    destruct err as [e|]; [|destruct (core_Get store1 u) as [[[store2 u'] links] [e|]]];
      simpl in Hin; rewrite ?List.filter_app, ?Hx in Hin; simpl in Hin;
      destruct Hin as [Hd|[]]; injection Hd as <-; reflexivity.
Qed.

End ArchiveStageProperties.

Section ArchiveErrorProperties.
Context `{Externals} {DB : Type} `{Database DB} {Store : Type} `{Datastore Store}.
Variable FetchOutboundLinks_SuccessType : string.

(** X20. What the client is told when a later stage fails.  If reading or
    saving the entity fails, the one response says "internal server error"
    and the error's own text goes to the log only.  If the first GET fails,
    the client has already been sent URL_ARCHIVE_SUCCESS for the entity, and
    the URL_ARCHIVE_ERROR that follows carries the error's text as it is. *)
Theorem Client_ArchiveUrl_late_failures
        (db : DB) (store : Store) (now : Time) (reqId url : string) (e : error) :
  let run := Client_ArchiveUrl FetchOutboundLinks_SuccessType db store now reqId url in
  let created := Time_In_UTC (Time_Round now Second) in
  let resolved := read_or_save store (mkUrl url "" "") in
  ValidArchivingUrl db url = None ->
  snd (Exec_insert_archive_request db created url "") = None ->
  core_ParsedUrl (mkUrl url "" "") = None ->
  (snd resolved = Some e ->
   sends (snd run)
   = [json_encode_response (archive_error reqId "internal server error")] /\
   In (EvLog (Error e)) (snd run) /\ fetched (snd run) = []) /\
  (snd resolved = None ->
   snd (core_Get (fst (fst (fst resolved))) (snd (fst (fst resolved)))) = Some e ->
   sends (snd run)
   = [json_encode_response
        (mkResponse "URL_ARCHIVE_SUCCESS" reqId "" "URL"
                    (VUrl (snd (fst (fst resolved)))) false);
      json_encode_response (archive_error reqId (Error e))]).
Proof.
  intros run created resolved Hvalid Hinsert Hparse.
  subst run resolved. unfold Client_ArchiveUrl. fold created.
  rewrite Hvalid.
  destruct (Exec_insert_archive_request db created url "") as [db1 err1].
  simpl in Hinsert. subst err1. rewrite Hparse.
  destruct (read_or_save_quiet store (mkUrl url "" "")) as (Hs & _ & _).
  assert (Hf : fetched (snd (fst (read_or_save store (mkUrl url "" "")))) = []).
  { unfold read_or_save. destruct (core_Read store _) as [u' [err|]]; simpl.
    - destruct (decide (err = core_ErrNotFound)); [|reflexivity].
      destruct (core_Save store u') as [store' [err'|]]; reflexivity.
    - reflexivity. }
  destruct (read_or_save store (mkUrl url "" "")) as [[[store1 u] resolve] err].
  simpl in *. split.
  - intros ->. simpl. rewrite sends_app, fetched_app, Hs, Hf.
    split; [reflexivity|]. split; [|reflexivity].
    right. right. right. apply in_or_app. right. left. reflexivity.
  - intros -> Hget.
    destruct (core_Get store1 u) as [[[store2 u'] links] err2].
    simpl in Hget. subst err2. simpl. rewrite !sends_app, Hs. reflexivity.
Qed.

(** X21. The throttled crawl takes every link in order, one GET each,
    whatever the earlier GETs returned; it sleeps three seconds per link;
    and it enqueues two messages per link plus one more for each GET that
    failed. *)
Theorem crawlLinks_every_link (store : Store) (links : list Link) :
  let evs := snd (crawlLinks store links) in
  fetched evs = map (fun l => Url_Url (Dst l)) links /\
  slept evs = 3 * Second * Z.of_nat (length links) /\
  length (sends evs)
  = (2 * length links + failures (get_outcomes store links))%nat.
Proof.
  revert store. induction links as [|l rest IH]; intros store.
  - repeat split.
  - cbv zeta. rewrite crawlLinks_cons. cbn [snd get_outcomes].
    destruct (core_Get store (Dst l)) as [[[store' u'] ls] err].
    cbn [fst snd]. destruct (IH store') as (Hf & Hz & Hn).
    rewrite fetched_app, slept_app, sends_app, length_app, Hf, Hz, Hn,
      link_events_sends.
    unfold failures. destruct err as [e|]; cbn; repeat split; lia.
Qed.

(** X22. [ArchiveUrl] either starts its goroutines, returning the entity
    and no error without having called [done], or it calls [done] once
    itself, with the very error it returns, and starts nothing. *)
Theorem ArchiveUrl_done_or_started (store : Store) (url : string) :
  let start := ArchiveUrl store url in
  (as_started start = true /\ as_err start = None /\ as_done start = [] /\
   exists u, as_url start = Some u) \/
  (as_started start = false /\
   exists e, as_err start = Some e /\ as_done start = [Some e]).
Proof.
  unfold ArchiveUrl.
  destruct (core_ParsedUrl (mkUrl url "" "")) as [e|]; [right; simpl; eauto|].
  destruct (read_or_save store (mkUrl url "" "")) as [[[store1 u] evs] [e|]];
    [right; simpl; eauto|].
  destruct (core_Get store1 u) as [[[store2 u'] links] [e|]];
    [right; simpl; eauto|].
  left. simpl. eauto.
Qed.

End ArchiveErrorProperties.

(** ** [ArchiveUrlSync] *)

Section ArchiveSyncProperties.
Context `{Externals} {Store : Type} `{Datastore Store}.

Lemma ArchiveUrl_not_started (store : Store) (url : string) :
  as_started (ArchiveUrl store url) = false ->
  exists e, as_err (ArchiveUrl store url) = Some e /\
            as_done (ArchiveUrl store url) = [Some e].
Proof.
  unfold ArchiveUrl.
  destruct (core_ParsedUrl (mkUrl url "" "")) as [e|]; [simpl; eauto|].
  destruct (read_or_save store (mkUrl url "" "")) as [[[store1 u] evs] [e|]];
    [simpl; eauto|].
  destruct (core_Get store1 u) as [[[store2 u'] links] [e|]];
    [simpl; eauto|discriminate].
Qed.

Lemma sync_without_goroutines
      (tasks n : nat) (c : caller_pc) (u : option Url) (s : @Sync Store) :
  sync_steps tasks n (mkSync c u None) s -> n = 0%nat /\ s = mkSync c u None.
Proof.
  intros Hrun. remember (mkSync c u None) as s0 eqn:Hs0.
  induction Hrun as [s|n s s' s'' Hrun IH Hstep]; [split; reflexivity|].
  exfalso. destruct (IH Hs0) as [_ ->]. subst s.
  destruct Hstep as [Hp|Ha]; discriminate.
Qed.

(** X23. When [ArchiveUrl] fails before starting its goroutines,
    [ArchiveUrlSync] never returns: [ArchiveUrl] calls the callback in the
    caller's own goroutine, the callback sends the error on the unbuffered
    [done], and the only receive from [done] comes after [ArchiveUrl]
    returns; no goroutine is there to move. *)
Theorem ArchiveUrlSync_blocks_when_ArchiveUrl_fails
        (store : Store) (url : string) :
  as_started (ArchiveUrl store url) = false ->
  exists e,
    as_err (ArchiveUrl store url) = Some e /\
    s_caller (Sync_init store url) = InCallback (Some e) /\
    forall tasks n s,
      sync_steps tasks n (Sync_init store url) s ->
      n = 0%nat /\ s_caller s = InCallback (Some e).
Proof.
  intros Hnot. destruct (ArchiveUrl_not_started _ _ Hnot) as (e & Herr & Hdone).
  exists e. split; [exact Herr|].
  assert (Hinit : Sync_init store url
                  = mkSync (InCallback (Some e)) (as_url (ArchiveUrl store url)) None).
  { unfold Sync_init. rewrite Hdone. reflexivity. }
  rewrite Hinit. split; [reflexivity|].
  intros tasks n s Hrun.
  destruct (sync_without_goroutines _ _ _ _ _ Hrun) as [-> ->].
  split; reflexivity.
Qed.

Lemma producer_step_returned (tasks : nat) (b b' : @Batch Store) :
  producer_step tasks b = Some b' -> b_returned b' = b_returned b.
Proof.
  unfold producer_step. destruct (b_links b) as [|l rest]; [discriminate|].
  destruct (b_pc b).
  - destruct (core_Get (b_store b) (Dst l)) as [[[st u'] ls] err].
    intros Hs. injection Hs as <-. reflexivity.
  - destruct (length (b_errs b) <? tasks)%nat; [|discriminate].
    intros Hs. injection Hs as <-. reflexivity.
  - intros Hs. injection Hs as <-. reflexivity.
Qed.

Lemma aggregator_step_running (tasks : nat) (b b' : @Batch Store) :
  aggregator_step tasks b = Some b' -> b_returned b = false.
Proof.
  unfold aggregator_step. destruct (b_returned b); [discriminate|reflexivity].
Qed.

Lemma sync_step_inv (tasks : nat) (u : option Url) (s s' : @Sync Store) :
  sync_inv tasks u s -> sync_step tasks s s' ->
  sync_inv tasks u s' /\ S (sync_measure tasks s') = sync_measure tasks s.
Proof.
  intros (Hu & b & Hb & Hinv & Hcaller) [Hp|Ha].
  - unfold sync_producer in Hp. rewrite Hb in Hp.
    destruct (producer_step tasks b) as [b'|] eqn:Hstep; [|discriminate].
    injection Hp as <-.
    destruct (producer_step_inv _ _ _ Hinv Hstep) as [Hinv' Hm].
    split; [|unfold sync_measure; simpl; rewrite Hb; exact Hm].
    split; [exact Hu|]. exists b'. split; [reflexivity|]. split; [exact Hinv'|].
    rewrite (producer_step_returned _ _ _ Hstep). exact Hcaller.
  - unfold sync_aggregator in Ha. rewrite Hb in Ha.
    destruct (aggregator_step tasks b) as [b'|] eqn:Hstep; [|discriminate].
    destruct (aggregator_step_inv _ _ _ Hinv Hstep) as [Hinv' Hm].
    rewrite (aggregator_step_running _ _ _ Hstep) in Hcaller.
    rewrite Hcaller in Ha.
    destruct (b_returned b') eqn:Hret; injection Ha as <-.
    + split; [|unfold sync_measure; simpl; rewrite Hb; exact Hm].
      split; [exact Hu|]. exists b'. split; [reflexivity|]. split; [exact Hinv'|].
      rewrite Hret. simpl.
      destruct Hinv' as (_ & _ & _ & Hd). rewrite Hret in Hd.
      destruct Hd as [-> _]. rewrite Hu. reflexivity.
    + split; [|unfold sync_measure; simpl; rewrite Hb; exact Hm].
      split; [exact Hu|]. exists b'. split; [reflexivity|]. split; [exact Hinv'|].
      rewrite Hret. reflexivity.
Qed.

Lemma sync_steps_inv (tasks n : nat) (u : option Url) (s s' : @Sync Store) :
  sync_inv tasks u s -> sync_steps tasks n s s' ->
  sync_inv tasks u s' /\ (n + sync_measure tasks s')%nat = sync_measure tasks s.
Proof.
  intros Hinv Hrun. induction Hrun as [s|n s s' s'' Hrun IH Hstep].
  - split; [assumption|reflexivity].
  - destruct (IH Hinv) as [Hinv' Hm].
    destruct (sync_step_inv _ _ _ _ Hinv' Hstep) as [Hinv'' Hm'].
    split; [assumption|lia].
Qed.

Lemma sync_stuck_returned (tasks : nat) (u : option Url) (s : @Sync Store) :
  sync_inv tasks u s -> sync_stuck tasks s -> s_caller s = Returned u None.
Proof.
  intros (Hu & b & Hb & Hinv & Hcaller) [Hp Ha].
  destruct (b_returned b) eqn:Hret; [exact Hcaller|]. exfalso.
  unfold sync_producer in Hp. unfold sync_aggregator in Ha.
  rewrite Hb in Hp, Ha. rewrite Hcaller in Ha.
  assert (Hstuck : batch_stuck tasks b).
  { split.
    - destruct (producer_step tasks b); [discriminate|reflexivity].
    - destruct (aggregator_step tasks b) as [b'|]; [|reflexivity].
      destruct (b_returned b'); discriminate. }
  destruct (batch_stuck_finished _ _ Hinv Hstuck) as (_ & _ & _ & Hdone).
  destruct Hinv as (_ & _ & _ & Hd). rewrite Hret in Hd. congruence.
Qed.

Lemma sync_run_returned (fuel tasks : nat) (u : option Url) (s : @Sync Store) :
  sync_inv tasks u s -> (sync_measure tasks s <= fuel)%nat ->
  s_caller (sync_run fuel tasks s) = Returned u None.
Proof.
  revert s. induction fuel as [|fuel IH]; intros s Hinv Hfuel; simpl.
  - apply (sync_stuck_returned tasks); [exact Hinv|].
    split.
    + destruct (sync_producer tasks s) as [s'|] eqn:Hp; [|reflexivity].
      destruct (sync_step_inv _ _ _ _ Hinv (or_introl Hp)) as [_ Hm]. lia.
    + destruct (sync_aggregator tasks s) as [s'|] eqn:Ha; [|reflexivity].
      destruct (sync_step_inv _ _ _ _ Hinv (or_intror Ha)) as [_ Hm]. lia.
  - destruct (sync_aggregator tasks s) as [s'|] eqn:Ha.
    + destruct (sync_step_inv _ _ _ _ Hinv (or_intror Ha)) as [Hinv' Hm].
      apply IH; [exact Hinv'|lia].
    + destruct (sync_producer tasks s) as [s'|] eqn:Hp.
      * destruct (sync_step_inv _ _ _ _ Hinv (or_introl Hp)) as [Hinv' Hm].
        apply IH; [exact Hinv'|lia].
      * apply (sync_stuck_returned tasks); [exact Hinv|split; assumption].
Qed.

(** X24. When [ArchiveUrl] starts its goroutines, [ArchiveUrlSync] returns
    the entity and a nil error, whatever the GETs of the links return: in
    every interleaving the caller is either still waiting at the receive or
    has returned just that; no run is longer than four moves per link plus
    one; when nothing can move the caller has returned; and from every
    reachable state the run completes with the caller returned. *)
Theorem ArchiveUrlSync_returns_nil
        (store : Store) (url : string) (n : nat) (s : @Sync Store) :
  let start := ArchiveUrl store url in
  let tasks := length (as_links start) in
  as_started start = true ->
  sync_steps tasks n (Sync_init store url) s ->
  (s_caller s = AtReceive \/ s_caller s = Returned (as_url start) None) /\
  (n <= 4 * tasks + 1)%nat /\
  (sync_stuck tasks s -> s_caller s = Returned (as_url start) None) /\
  s_caller (sync_run (4 * tasks + 1) tasks s) = Returned (as_url start) None.
Proof.
  intros start tasks Hstarted Hrun.
  destruct (ArchiveUrl_started _ _ Hstarted) as [Hdone _].
  assert (Hinit : Sync_init store url
                  = mkSync AtReceive (as_url start)
                           (Some (Batch_init (as_store start) (as_links start)))).
  { unfold Sync_init. subst tasks start. rewrite Hdone. reflexivity. }
  assert (Hinv0 : sync_inv tasks (as_url start) (Sync_init store url)).
  { rewrite Hinit. split; [reflexivity|]. eexists. split; [reflexivity|].
    split; [apply batch_inv_init|reflexivity]. }
  assert (Hm0 : sync_measure tasks (Sync_init store url) = (4 * tasks + 1)%nat).
  { rewrite Hinit. unfold sync_measure, batch_measure, Batch_init. simpl.
    fold tasks. lia. }
  destruct (sync_steps_inv _ _ _ _ _ Hinv0 Hrun) as [Hinv Hm].
  split.
  { destruct Hinv as (_ & b & _ & _ & Hc).
    destruct (b_returned b); [right|left]; exact Hc. }
  split; [lia|].
  split; [apply sync_stuck_returned; exact Hinv|].
  apply sync_run_returned; [exact Hinv|lia].
Qed.

End ArchiveSyncProperties.

(** ** The fetching goroutine of [ArchiveUrl] *)

Section BatchFetchProperties.
Context `{Externals} {Store : Type} `{Datastore Store}.

Lemma batch_step_fetch (tasks : nat) (links : list Link) (b b' : @Batch Store) :
  fetch_inv links b -> batch_step tasks b b' -> fetch_inv links b'.
Proof.
  unfold fetch_inv, pending_urls.
  destruct b as [st ls pc errs i ret dn evs]. simpl.
  intros [Hf Hs] [Hp|Ha].
  - unfold producer_step in Hp. simpl in Hp.
    destruct ls as [|l rest]; [discriminate|]. destruct pc.
    + destruct (core_Get st (Dst l)) as [[[st' u'] ls'] err].
      injection Hp as <-. simpl in *.
      rewrite fetched_app, slept_app. split.
      * rewrite <- Hf, <- app_assoc. f_equal. destruct err; reflexivity.
      * rewrite <- Hs. destruct err; simpl; lia.
    + destruct (length errs <? tasks)%nat; [|discriminate].
      injection Hp as <-. simpl in *. split; assumption.
    + injection Hp as <-. simpl in *.
      rewrite fetched_app, slept_app. simpl. rewrite app_nil_r.
      split; [exact Hf|]. rewrite <- Hs. lia.
  - unfold aggregator_step in Ha. simpl in Ha.
    destruct ret; [discriminate|].
    destruct (i <? tasks)%nat.
    + destruct errs as [|[e|] errs]; [discriminate| |];
        injection Ha as <-; simpl; split; assumption.
    + injection Ha as <-. simpl. split; assumption.
Qed.

Lemma batch_steps_fetch (tasks n : nat) (links : list Link) (b b' : @Batch Store) :
  fetch_inv links b -> batch_steps tasks n b b' -> fetch_inv links b'.
Proof.
  intros Hinv Hrun. induction Hrun as [b|n b b' b'' Hrun IH Hstep];
    [assumption|].
  eapply batch_step_fetch; [apply IH; exact Hinv|exact Hstep].
Qed.

(** X25. In every interleaving the fetching goroutine of [ArchiveUrl] GETs
    the links one by one in their order: what it has fetched so far is
    always a prefix of the links, and when both goroutines are done it has
    fetched every link exactly once, failures included, and slept three
    seconds after each. *)
Theorem batch_fetches_every_link
        (store : Store) (links : list Link) (n : nat) (b : @Batch Store) :
  batch_steps (length links) n (Batch_init store links) b ->
  (exists todo,
      map (fun l => Url_Url (Dst l)) links = fetched (b_events b) ++ todo) /\
  (batch_stuck (length links) b ->
   fetched (b_events b) = map (fun l => Url_Url (Dst l)) links /\
   slept (b_events b) = 3 * Second * Z.of_nat (length links)).
Proof.
  intros Hrun.
  assert (Hinit : fetch_inv links (Batch_init store links))
    by (split; reflexivity).
  destruct (batch_steps_fetch _ _ _ _ _ Hinit Hrun) as [Hf Hs].
  split; [exists (pending_urls b); symmetry; exact Hf|].
  intros Hstuck.
  destruct (batch_steps_inv _ _ _ _ (batch_inv_init store links) Hrun) as [Hinv _].
  destruct (batch_stuck_finished _ _ Hinv Hstuck) as (Hlinks & _).
  unfold pending_urls in Hf. rewrite Hlinks in Hf, Hs. simpl in Hs.
  split; [|lia].
  rewrite <- Hf. destruct (b_pc b); simpl; rewrite app_nil_r; reflexivity.
Qed.

End BatchFetchProperties.

(** ** The further properties on the in-memory instance *)

Lemma CalcHash_is_lowercase_hex_witness :
  CalcHash [x01; x02] = Ok "12200201" /\
  hex_DecodeString "12200201" = Some [x12; x20; x02; x01].
Proof.
  assert (Hh : CalcHash [x01; x02] = Ok "12200201") by reflexivity.
  split; [exact Hh|].
  destruct (proj1 (CalcHash_is_lowercase_hex [x01; x02]) _ Hh)
    as (mhBuf & Hm & _ & _ & Hd).
  rewrite Hd. f_equal. vm_compute in Hm. congruence.
Defined.

Lemma CalcHash_same_hash_same_multihash_witness :
  [x01; x02] <> [x01; x03] /\
  @CalcHash Samples.short_digest [x01; x02] = Ok "122001" /\
  @CalcHash Samples.short_digest [x01; x03] = Ok "122001" /\
  @multihash_EncodeName Samples.short_digest
     (@sha256_Sum Samples.short_digest [x01; x02]) "sha2-256"
  = @multihash_EncodeName Samples.short_digest
       (@sha256_Sum Samples.short_digest [x01; x03]) "sha2-256".
Proof.
  assert (Ha : @CalcHash Samples.short_digest [x01; x02] = Ok "122001")
    by reflexivity.
  assert (Hb : @CalcHash Samples.short_digest [x01; x03] = Ok "122001")
    by reflexivity.
  split; [discriminate|]. split; [exact Ha|]. split; [exact Hb|].
  exact (@CalcHash_same_hash_same_multihash Samples.short_digest
           [x01; x02] [x01; x03] "122001" Ha Hb).
Defined.

Lemma calcHash_settles_witness :
  calcHash (fst (calcHash Samples.record_empty))
  = (fst (calcHash Samples.record_empty), None).
Proof.
  assert (Hc : calcHash Samples.record_empty
               = (fst (calcHash Samples.record_empty), None))
    by (vm_compute; reflexivity).
  exact (proj1 (calcHash_settles _ _ None Hc)).
Defined.

Lemma MetadataForSubject_all_or_nothing_witness :
  Samples.query_rows Demo.db1 "subject1"
  = Ok [Samples.good_row "1220aa"] /\
  MetadataForSubject Samples.query_rows Demo.db1 "subject1"
  = Ok [mkMetadata "1220aa" (mkTime 1400000000000000000 0)
                   "key1" "subject1" "" (Some ∅)].
Proof.
  assert (Hq : Samples.query_rows Demo.db1 "subject1"
               = Ok [Samples.good_row "1220aa"]) by reflexivity.
  split; [exact Hq|].
  apply (proj1 (proj2 (MetadataForSubject_all_or_nothing
                         Samples.query_rows Demo.db1 "subject1") _ Hq)).
  repeat constructor.
Defined.

Example scan_rows_stops_at_bad_row :
  scan_rows [Samples.good_row "1220aa"; Samples.bad_row; Samples.good_row "1220cc"] []
  = Err (errors_New "invalid character in meta").
Proof. reflexivity. Qed.

Lemma HashMaps_keyMap_witness :
  (HashMaps Samples.record_twins
            [("a", VString "same"); ("b", VString "same")]).1.2 = None /\
  exists h,
    (HashMaps Samples.record_twins
              [("a", VString "same"); ("b", VString "same")]).1.1.1 !! "b" = Some h
    /\ hash_value (VString "same") = Ok h.
Proof.
  assert (Herr : (HashMaps Samples.record_twins
                    [("a", VString "same"); ("b", VString "same")]).1.2 = None)
    by reflexivity.
  split; [exact Herr|].
  destruct (hash_value (VString "same")) as [h|e] eqn:Hh; [|discriminate].
  exists h. split; [|reflexivity].
  apply (HashMaps_keyMap Samples.record_twins
           (<["a" := VString "same"]> (<["b" := VString "same"]> ∅))
           [("a", VString "same"); ("b", VString "same")]);
    [reflexivity | vm_compute; reflexivity | exact Herr |].
  exists (VString "same"). split; [reflexivity|exact Hh].
Defined.

Lemma HashMaps_valueMap_witness :
  (HashMaps Samples.record_twins
            [("b", VString "same"); ("a", VString "same")]).1.2 = None /\
  exists h v',
    (HashMaps Samples.record_twins
              [("b", VString "same"); ("a", VString "same")]).1.1.2 !! h = Some v'
    /\ hash_value v' = Ok h.
Proof.
  assert (Herr : (HashMaps Samples.record_twins
                    [("b", VString "same"); ("a", VString "same")]).1.2 = None)
    by reflexivity.
  split; [exact Herr|].
  assert (Hperm : [("b", VString "same"); ("a", VString "same")]
                  ≡ₚ map_to_list (<["a" := VString "same"]>
                                   (<["b" := VString "same"]> (∅ : gmap string Value)))).
  { replace (map_to_list (<["a" := VString "same"]>
                           (<["b" := VString "same"]> (∅ : gmap string Value))))
      with [("a", VString "same"); ("b", VString "same")]
      by (vm_compute; reflexivity).
    apply Permutation_swap. }
  destruct (proj2 (HashMaps_valueMap Samples.record_twins _ _ eq_refl Hperm Herr)
              "a" (VString "same") eq_refl)
    as (h & v' & _ & Hv & _ & Hh').
  exists h, v'. split; assumption.
Defined.

Lemma HashMaps_errors_witness :
  HashMaps Samples.record_nil []
  = (∅, ∅, Some (errors_New "metablock has no metadata calculate hashmaps from"),
     [EvLog "1220cc : key1.subject1"]).
Proof.
  exact (proj1 (HashMaps_errors Samples.record_nil []) eq_refl).
Defined.

Example HashMaps_refuses_a_channel :
  (HashMaps Demo.record_chan
            [("listener", VChan); ("title", VString "Example")]).1.2
  = Some (errors_New "json: unsupported value").
Proof. reflexivity. Qed.

Lemma Write_hash_determined_by_five_fields_witness :
  In (EvExec (InsertMetadata Samples.row_empty))
     (w_events (Write Demo.db0 Demo.clock_utc Samples.record_empty)) /\
  w_record (Write Demo.db_down Demo.clock_utc
                  (set_Hash (set_Timestamp Samples.record_empty Demo.clock0) "stale"))
  = w_record (Write Demo.db0 Demo.clock_utc Samples.record_empty).
Proof.
  assert (Hin : In (EvExec (InsertMetadata Samples.row_empty))
                   (w_events (Write Demo.db0 Demo.clock_utc Samples.record_empty)))
    by (vm_compute; left; reflexivity).
  split; [exact Hin|].
  exact (proj2 (Write_hash_determined_by_five_fields
                  Demo.db0 Demo.db_down Demo.clock_utc Samples.record_empty
                  (set_Hash (set_Timestamp Samples.record_empty Demo.clock0) "stale")
                  Samples.row_empty eq_refl eq_refl eq_refl eq_refl Hin)).
Defined.

Lemma Write_then_NextMetadata_witness :
  QueryRow_latest_metadata
    (w_db (Write Demo.db0 Demo.clock_utc Samples.record_empty))
    "key1" "subject1" = Ok Samples.row_empty /\
  NextMetadata (w_db (Write Demo.db0 Demo.clock_utc Samples.record_empty))
               "key1" "subject1"
  = Ok (mkMetadata "" Time_zero "key1" "subject1"
          (Hash (w_record (Write Demo.db0 Demo.clock_utc Samples.record_empty)))
          (Some ∅)).
Proof.
  assert (Hin : In (EvExec (InsertMetadata Samples.row_empty))
                   (w_events (Write Demo.db0 Demo.clock_utc Samples.record_empty)))
    by (vm_compute; left; reflexivity).
  assert (Hq : QueryRow_latest_metadata
                 (w_db (Write Demo.db0 Demo.clock_utc Samples.record_empty))
                 "key1" "subject1" = Ok Samples.row_empty)
    by (vm_compute; reflexivity).
  split; [exact Hq|].
  apply (Write_then_NextMetadata Demo.db0 _ Demo.clock_utc Samples.record_empty
           Samples.row_empty (Some ∅) Hin Hq).
  intros metaBytes Hm. vm_compute in Hm. injection Hm as <-. reflexivity.
Defined.

Lemma Write_reread_hash_input_witness :
  UnmarshalSQL Metadata_zero (Ok Samples.row_empty) = (Samples.reread_empty, None) /\
  hashable Samples.reread_empty
  = hashable (w_record (Write Demo.db0 Demo.clock_utc Samples.record_empty)).
Proof.
  assert (Hin : In (EvExec (InsertMetadata Samples.row_empty))
                   (w_events (Write Demo.db0 Demo.clock_utc Samples.record_empty)))
    by (vm_compute; left; reflexivity).
  assert (Hu : UnmarshalSQL Metadata_zero (Ok Samples.row_empty)
               = (Samples.reread_empty, None)) by (vm_compute; reflexivity).
  split; [exact Hu|].
  destruct (Write_reread_hash_input Demo.db0 Demo.clock_utc Samples.record_empty
              Samples.reread_empty Samples.row_empty Hin Hu)
    as (_ & _ & _ & _ & _ & Hiff); [vm_compute; reflexivity|].
  apply Hiff. reflexivity.
Defined.

(** Written on a clock one hour east of UTC, the row read back would be
    hashed over another struct than the one that was hashed. *)
Example Write_reread_differs_off_UTC :
  snd (UnmarshalSQL Metadata_zero (Ok Samples.row_empty_east)) = None /\
  Hash (fst (UnmarshalSQL Metadata_zero (Ok Samples.row_empty_east)))
  = Hash (w_record (Write Demo.db0 Demo.clock0 Samples.record_empty)) /\
  hashable (fst (UnmarshalSQL Metadata_zero (Ok Samples.row_empty_east)))
  <> hashable (w_record (Write Demo.db0 Demo.clock0 Samples.record_empty)).
Proof.
  split; [vm_compute; reflexivity|]. split; [vm_compute; reflexivity|].
  vm_compute. discriminate.
Qed.

Lemma HandleAction_unclaimed_request_witness :
  HandleAction Samples.registry_status 0%nat
               (list_byte_of_string "{Type:URL_ARCHIVE_REQUEST,RequestId:r1,Data:{}}")
  = (0%nat, [EvLog "r1: URL_ARCHIVE_REQUEST"]).
Proof.
  assert (Hparse : json_Unmarshal_action
                     (list_byte_of_string
                        "{Type:URL_ARCHIVE_REQUEST,RequestId:r1,Data:{}}")
                   = Ok (mkAction "URL_ARCHIVE_REQUEST" "r1" false
                                  (list_byte_of_string "{}")))
    by reflexivity.
  apply (HandleAction_unclaimed_request Samples.registry_status 0%nat _ _ Hparse).
  - exists "URL_ARCHIVE_". reflexivity.
  - reflexivity.
Defined.

Example readPump_sample :
  snd (readPump Demo.registry
         [ReadMessage (list_byte_of_string "{Type:CHAT_MESSAGE,RequestId:r2}");
          ReadError (errors_New "websocket: close 1006") true;
          ReadMessage (list_byte_of_string "{Type:STATUS_REQUEST,RequestId:r4,SilentError:true}")]
         None 0%nat)
  = [EvLog "unrecognized action: CHAT_MESSAGE";
     EvLog "error: websocket: close 1006"; EvClose; EvUnregister; EvClose].
Proof. reflexivity. Qed.

Lemma writePump_fifo_witness :
  existsb ends_pump
          [Received (list_byte_of_string "one") None None; Tick None;
           Received (list_byte_of_string "two") None None] = false /\
  texts (fst (writePump
                [Received (list_byte_of_string "one") None None; Tick None;
                 Received (list_byte_of_string "two") None None]))
  = [list_byte_of_string "one"; list_byte_of_string "two"].
Proof.
  split; [reflexivity|].
  exact (proj1 (proj2 (writePump_fifo
                         [Received (list_byte_of_string "one") None None; Tick None;
                          Received (list_byte_of_string "two") None None])
                      eq_refl)).
Defined.

Lemma writePump_returns_witness :
  snd (writePump Samples.wakes_closed) = true /\
  exists evs,
    fst (writePump Samples.wakes_closed) = evs ++ [PumpTickerStop; PumpConnClose] /\
    ~ In PumpTickerStop evs /\ ~ In PumpConnClose evs.
Proof.
  split; [reflexivity|].
  exact (proj1 (proj2 (writePump_returns Samples.wakes_closed)) eq_refl).
Defined.

Lemma writePump_deadlines_witness :
  fst (writePump ([Received (list_byte_of_string "one") None None; Tick None]
                    ++ ChannelClosed
                    :: [Received (list_byte_of_string "three") None None]))
  = [PumpSetWriteDeadline writeWait; PumpWrite (TextMessage (list_byte_of_string "one"));
     PumpSetWriteDeadline writeWait; PumpWrite PingMessage;
     PumpSetWriteDeadline writeWait; PumpWrite CloseMessage;
     PumpTickerStop; PumpConnClose].
Proof.
  exact (proj2 (writePump_deadlines
                  [Received (list_byte_of_string "one") None None; Tick None]
                  [Received (list_byte_of_string "three") None None])
               eq_refl).
Defined.

Lemma Client_ArchiveUrl_storage_order_witness :
  ValidArchivingUrl Demo.db0 "http://example.com/x" = None /\
  In (EvExec (InsertArchiveRequest (mkTime 1500000001000000000 0)
                                   "http://example.com/x" ""))
     (snd (Client_ArchiveUrl "LINKS_SUCCESS" Demo.db0 Demo.store0 Demo.clock_utc
                             "r1" "http://example.com/x")).
Proof.
  assert (Hv : ValidArchivingUrl Demo.db0 "http://example.com/x" = None)
    by reflexivity.
  split; [exact Hv|].
  exact (proj1 (proj1 (Client_ArchiveUrl_storage_order
                         "LINKS_SUCCESS" Demo.db0 Demo.store0 Demo.clock_utc
                         "r1" "http://example.com/x") Hv)).
Defined.

Lemma Client_ArchiveUrl_late_failures_witness :
  ValidArchivingUrl Demo.db0 "http://example.com/x" = None /\
  sends (snd (Client_ArchiveUrl "LINKS_SUCCESS" Demo.db0 Samples.store_broken
                                Demo.clock_utc "r1" "http://example.com/x"))
  = [json_encode_response
       (mkResponse "URL_ARCHIVE_SUCCESS" "r1" "" "URL"
                   (VUrl (mkUrl "http://example.com/x" "" "")) false);
     json_encode_response
       (archive_error "r1" "GET http://example.com/x: no such host")].
Proof.
  assert (Hv : ValidArchivingUrl Demo.db0 "http://example.com/x" = None)
    by reflexivity.
  split; [exact Hv|].
  exact (proj2 (Client_ArchiveUrl_late_failures
                  "LINKS_SUCCESS" Demo.db0 Samples.store_broken Demo.clock_utc
                  "r1" "http://example.com/x"
                  (errors_New "GET http://example.com/x: no such host")
                  Hv eq_refl eq_refl)
               eq_refl eq_refl).
Defined.

Lemma ArchiveUrlSync_blocks_when_ArchiveUrl_fails_witness :
  as_started (ArchiveUrl Samples.store_broken "http://example.com/x") = false /\
  s_caller (Sync_init Samples.store_broken "http://example.com/x")
  = InCallback (Some (errors_New "GET http://example.com/x: no such host")).
Proof.
  assert (Hs : as_started (ArchiveUrl Samples.store_broken "http://example.com/x")
               = false) by reflexivity.
  split; [exact Hs|].
  destruct (ArchiveUrlSync_blocks_when_ArchiveUrl_fails
              Samples.store_broken "http://example.com/x" Hs)
    as (e & Herr & Hcaller & _).
  rewrite Hcaller. vm_compute in Herr. congruence.
Defined.

Lemma ArchiveUrlSync_returns_nil_witness :
  as_started (ArchiveUrl Demo.store0 "http://example.com/x") = true /\
  s_caller (sync_run 9 2 (Sync_init Demo.store0 "http://example.com/x"))
  = Returned (Some (mkUrl "http://example.com/x" "" "")) None.
Proof.
  assert (Hs : as_started (ArchiveUrl Demo.store0 "http://example.com/x") = true)
    by reflexivity.
  split; [exact Hs|].
  exact (proj2 (proj2 (proj2
           (ArchiveUrlSync_returns_nil Demo.store0 "http://example.com/x"
              0%nat _ Hs (sync_refl _ _))))).
Defined.

Lemma batch_fetches_every_link_witness :
  batch_stuck 2 (batch_run 9 2 (Batch_init Demo.store0 [Demo.link_a; Demo.link_b])) /\
  fetched (b_events (batch_run 9 2 (Batch_init Demo.store0 [Demo.link_a; Demo.link_b])))
  = ["http://example.com/a"; "http://example.com/b"].
Proof.
  assert (Hstuck : batch_stuck 2 (batch_run 9 2 (Batch_init Demo.store0
                                                   [Demo.link_a; Demo.link_b])))
    by (split; reflexivity).
  split; [exact Hstuck|].
  destruct (batch_run_steps 9 2 (Batch_init Demo.store0 [Demo.link_a; Demo.link_b]))
    as [n Hn].
  exact (proj1 (proj2 (batch_fetches_every_link
                         Demo.store0 [Demo.link_a; Demo.link_b] n _ Hn) Hstuck)).
Defined.

(** The ping period is nine tenths of the pong wait, below it as the
    source asks. *)
Example pingPeriod_below_pongWait :
  pingPeriod = 54 * Second /\ pingPeriod < pongWait.
Proof. split; reflexivity. Qed.

(** ** The persisted row and its hash *)

(** C1, where the code departs from it: [Write] hashes the record with the
    stamp in the zone of the clock and hands the insert the stamp converted
    to UTC.  Written on a clock one hour east of UTC, the row that is
    persisted carries a hash that is not [CalcHash] of the serialization of
    its own five fields: read back, the record has the stored hash, but
    hashing its timestamp, keyId, subject, prev and meta gives another; and
    the same record written at the same instant on a clock in UTC gives a
    row equal on all five fields with a different hash. *)
Theorem Write_row_hash_not_over_its_columns :
  In (EvExec (InsertMetadata Samples.row_empty_east))
     (w_events (Write Demo.db0 Demo.clock0 Samples.record_empty)) /\
  Timestamp (w_record (Write Demo.db0 Demo.clock0 Samples.record_empty))
  = mkTime 1500000001000000000 3600 /\
  col_time_stamp Samples.row_empty_east = mkTime 1500000001000000000 0 /\
  UnmarshalSQL Metadata_zero (Ok Samples.row_empty_east)
  = (Samples.reread_east, None) /\
  Hash Samples.reread_east = col_hash Samples.row_empty_east /\
  (exists data h,
      HashableBytes Samples.reread_east = Ok data /\
      CalcHash data = Ok h /\ h <> Hash Samples.reread_east) /\
  col_time_stamp Samples.row_empty_east = col_time_stamp Samples.row_empty /\
  col_key_id Samples.row_empty_east = col_key_id Samples.row_empty /\
  col_subject Samples.row_empty_east = col_subject Samples.row_empty /\
  col_prev Samples.row_empty_east = col_prev Samples.row_empty /\
  col_meta Samples.row_empty_east = col_meta Samples.row_empty /\
  col_hash Samples.row_empty_east <> col_hash Samples.row_empty.
Proof.
  split; [vm_compute; left; reflexivity|].
  split; [vm_compute; reflexivity|].
  split; [vm_compute; reflexivity|].
  split; [vm_compute; reflexivity|].
  split; [vm_compute; reflexivity|].
  split.
  { eexists. eexists. split; [vm_compute; reflexivity|].
    split; [vm_compute; reflexivity|]. vm_compute. discriminate. }
  repeat (split; [vm_compute; reflexivity|]).
  vm_compute. discriminate.
Qed.

(** C10, as stated, fails: a record whose payload holds the title "Example"
    next to a value [json.Marshal] refuses is not hashed, [Write] returns
    that error before the insert, and no projection is started; the error
    returned is not the insert's, which on this database would not have
    failed. *)
Lemma Write_titled_record_without_projection :
  Meta_index (Meta Demo.record_chan) "title" = VString "Example" /\
  w_events (Write Demo.db0 Demo.clock0 Demo.record_chan) = [] /\
  ~ In (EvGo (GoTitleProjection "subject1" "Example"))
       (w_events (Write Demo.db0 Demo.clock0 Demo.record_chan)) /\
  w_err (Write Demo.db0 Demo.clock0 Demo.record_chan)
  = Some (errors_New "json: unsupported value") /\
  (forall row, snd (Exec_insert_metadata Demo.db0 row) = None).
Proof.
  split; [vm_compute; reflexivity|].
  split; [vm_compute; reflexivity|].
  split; [vm_compute; intros []|].
  split; [vm_compute; reflexivity|].
  intros row. reflexivity.
Qed.
